(** * tietie-bot: message describer, Discord link store, Matrix adapter

    A shallow embedding of
    - the message describer ([tryDescribeMessage], with [formatUser]),
    - the Discord link / nickname store ([setDiscordLink],
      [setDiscordNickname], [getDiscordNickname], [getDiscordLinks]),
    - the Matrix adapter ([MatrixUserBotClient.sendMessage],
      [uploadMediaAsync], and further [editMessage], [transformMessage],
      the [room.message] handler and [fetchBotInfo]),
    - the default command ([commands/default.js]),
    followed by the properties established for them. *)

From Stdlib Require Import ZArith NArith QArith List String Ascii Bool Lia.
From Stdlib Require Import DecimalString.
From stdpp Require Import base option list gmap.

Local Open Scope N_scope.

(** ** JavaScript values used by the code *)

Module JS.

(** A JavaScript string is a sequence of UTF-16 code units. *)
Definition jsstring : Type := list N.

(** Source literals are written in UTF-8; [utf8_code_points] decodes the
    bytes of a literal and [utf16_units] encodes the code points. *)
Fixpoint utf8_code_points (bs : list N) : list N :=
  match bs with
  | [] => []
  | b :: rest =>
    if b <? 0x80 then b :: utf8_code_points rest
    else if b <? 0xE0 then
      match rest with
      | b1 :: rest1 =>
        (N.shiftl (N.land b 0x1F) 6 + N.land b1 0x3F) :: utf8_code_points rest1
      | _ => [0xFFFD]
      end
    else if b <? 0xF0 then
      match rest with
      | b1 :: b2 :: rest2 =>
        (N.shiftl (N.land b 0x0F) 12 + N.shiftl (N.land b1 0x3F) 6
         + N.land b2 0x3F) :: utf8_code_points rest2
      | _ => [0xFFFD]
      end
    else
      match rest with
      | b1 :: b2 :: b3 :: rest3 =>
        (N.shiftl (N.land b 0x07) 18 + N.shiftl (N.land b1 0x3F) 12
         + N.shiftl (N.land b2 0x3F) 6 + N.land b3 0x3F)
          :: utf8_code_points rest3
      | _ => [0xFFFD]
      end
  end.

Definition utf16_units (cp : N) : list N :=
  if cp <? 0x10000 then [cp]
  else let v := cp - 0x10000 in
       [0xD800 + N.shiftr v 10; 0xDC00 + N.land v 0x3FF].

Definition js (s : string) : jsstring :=
  concat (map utf16_units
              (utf8_code_points (map Byte.to_N (list_byte_of_string s)))).

(** [WhiteSpace] and [LineTerminator] code units, the ones
    [String.prototype.trim] strips. *)
Definition isWhiteSpace (c : N) : bool :=
  (c =? 0x09) || (c =? 0x0A) || (c =? 0x0B) || (c =? 0x0C) || (c =? 0x0D)
  || (c =? 0x20) || (c =? 0xA0) || (c =? 0x1680)
  || ((0x2000 <=? c) && (c <=? 0x200A))
  || (c =? 0x2028) || (c =? 0x2029) || (c =? 0x202F) || (c =? 0x205F)
  || (c =? 0x3000) || (c =? 0xFEFF).

Fixpoint trimStart (s : jsstring) : jsstring :=
  match s with
  | c :: s' => if isWhiteSpace c then trimStart s' else s
  | [] => []
  end.

Definition trimEnd (s : jsstring) : jsstring := rev (trimStart (rev s)).

(** [s.trim()] *)
Definition trim (s : jsstring) : jsstring := trimEnd (trimStart s).

(** [s.startsWith(p)] *)
Fixpoint startsWith (p s : jsstring) : bool :=
  match p, s with
  | [], _ => true
  | a :: p', b :: s' => (a =? b) && startsWith p' s'
  | _ :: _, [] => false
  end.

(** [s.includes(sep)] *)
Fixpoint includes (sep s : jsstring) : bool :=
  startsWith sep s
  || match s with
     | [] => false
     | _ :: s' => includes sep s'
     end.

(** [s.split(sep)[0]] for a non-empty [sep]: the part of [s] before the
    first occurrence of [sep], all of [s] when there is none. *)
Fixpoint splitHead (sep s : jsstring) : jsstring :=
  if startsWith sep s then []
  else match s with
       | [] => []
       | c :: s' => c :: splitHead sep s'
       end.

(** A value of type [string | undefined]. *)
Definition optstring : Type := option jsstring.

(** [`${v}`]: the string a template literal interpolates. *)
Definition interpolate (v : optstring) : jsstring :=
  match v with
  | Some s => s
  | None => js "undefined"
  end.

(** The string [Array.prototype.join] uses for an element. *)
Definition joinElement (v : optstring) : jsstring :=
  match v with
  | Some s => s
  | None => []
  end.

(** [a || b] on strings: the empty string and [undefined] are falsy. *)
Definition orElse (a : optstring) (b : optstring) : optstring :=
  match a with
  | Some (_ :: _) => a
  | _ => b
  end.

(** Exceptions (rejected promises) raised by the code or its callees. *)
Inductive Exception : Type :=
| TypeError
| RequestError.

Inductive Result (A : Type) : Type :=
| Ok (a : A)
| Throw (e : Exception).
Arguments Ok {A} a.
Arguments Throw {A} e.

Definition bindR {A B} (r : Result A) (k : A -> Result B) : Result B :=
  match r with
  | Ok a => k a
  | Throw e => Throw e
  end.

(** JavaScript numbers: the doubles, as rationals with the non-finite
    values. *)
Inductive JSNum : Type :=
| NaN
| Inf (negative : bool)
| Fin (q : Q).

(** [!n] *)
Definition numFalsy (n : JSNum) : bool :=
  match n with
  | NaN => true
  | Inf _ => false
  | Fin q => Qeq_bool q 0
  end.

(** [n > k] for an integer constant [k] *)
Definition numGt (n : JSNum) (k : Z) : bool :=
  match n with
  | NaN => false
  | Inf negative => negb negative
  | Fin q => negb (Qle_bool q (inject_Z k))
  end.

(** The conversions of the runtime between numbers and strings. *)
Class Runtime : Type := {
  NumberToString : JSNum -> jsstring;
  StringToNumber : jsstring -> JSNum
}.

(** A value the code passes around without looking inside. *)
Inductive Opaque : Type := opaque (tag : N).

(** A runtime for the examples: it agrees with the JavaScript conversions
    on the non-negative integers and on the strings of decimal digits. *)
Definition digitsToString (n : N) : jsstring :=
  map (fun a => N_of_ascii a)
      (list_ascii_of_string
         (DecimalString.NilZero.string_of_uint (N.to_uint n))).

Definition isDigit (c : N) : bool := (0x30 <=? c) && (c <=? 0x39).

Definition digitsToNumber (s : jsstring) : JSNum :=
  if forallb isDigit (trim s)
  then Fin (inject_Z (Z.of_N (fold_left (fun acc c => 10 * acc + (c - 0x30))
                                        (trim s) 0)))
  else NaN.

Definition integerRuntime : Runtime :=
  {| NumberToString := fun n =>
       match n with
       | NaN => js "NaN"
       | Inf negative => if negative then js "-Infinity" else js "Infinity"
       | Fin q => digitsToString (Z.to_N (Qnum q))
       end;
     StringToNumber := digitsToNumber |}.

End JS.

Import JS.

Notation "'let*' x ':=' r 'in' k" := (bindR r (fun x => k))
  (at level 10, x name, r at level 100, k at level 200).

(** ** The message describer *)

Module Describe.

(** The Telegram types, with the fields the describer reads.  Every field
    of [User] is optional here because the describer also formats the
    empty object ([message.from ?? {}]). *)
Record User : Type := {
  first_name : optstring;
  last_name : optstring;
  username : optstring
}.

Definition emptyUser : User :=
  {| first_name := None; last_name := None; username := None |}.

Record Document : Type := { file_name : optstring }.
Record Sticker : Type := { set_name : optstring }.
Record Voice : Type := { duration : JSNum }.
Record Contact : Type := {
  contact_first_name : jsstring;
  contact_last_name : optstring
}.
Record Dice : Type := { emoji : jsstring; value : JSNum }.
Record Poll : Type := { question : jsstring }.
Record Location : Type := { latitude : JSNum; longitude : JSNum }.
Record Venue : Type := { title : jsstring }.

#[local] Set Warnings "-register-all".

(** A message; an absent field is [None] (['field' in message] is
    false). *)
Inductive Message : Type := mkMessage {
  from : option User;
  forward_from : option User;
  reply_to_message : option Message;
  via_bot : option User;
  audio : option Opaque;
  document : option Document;
  animation : option Opaque;
  photo : option Opaque;
  sticker : option Sticker;
  video : option Opaque;
  video_note : option Opaque;
  voice : option Voice;
  contact : option Contact;
  dice : option Dice;
  game : option Opaque;
  poll : option Poll;
  location : option Location;
  venue : option Venue;
  text : optstring;
  caption : optstring
}.

Record IBot : Type := { botInfo : option User }.

(** [a === b] on values of type [string | undefined] *)
Definition strictEq (a b : optstring) : bool :=
  match a, b with
  | Some x, Some y => bool_decide (x = y)
  | None, None => true
  | _, _ => false
  end.

Definition formatUser (user : User) : optstring :=
  orElse
    (Some (trim (interpolate (orElse (first_name user) (Some []))
                 ++ js " "
                 ++ interpolate (orElse (last_name user) (Some [])))))
    (username user).

Definition tryExtractUserFromMessage (bot : IBot) (message : Message)
  : Result optstring :=
  match from message with
  | None => Ok (Some [])
  | Some sender =>
    let* info := match botInfo bot with
                 | Some info => Ok info
                 | None => Throw TypeError
                 end in
    if strictEq (username sender) (username info) then
      match text message with
      | None => Throw TypeError
      | Some t =>
        if includes (js ": ") t then Ok (Some (splitHead (js ": ") t))
        else Ok (formatUser sender)
      end
    else Ok (formatUser sender)
  end.

(** What [tryDescribe] and a descriptor function return: a string or a
    promise of one. *)
Inductive Described : Type :=
| Str (s : jsstring)
| Promise (r : Result jsstring).

(** [await d] *)
Definition await (d : Described) : Result jsstring :=
  match d with
  | Str s => Ok s
  | Promise r => r
  end.

(** The string [join] makes of an array element that was not awaited. *)
Definition element (d : Described) : jsstring :=
  match d with
  | Str s => s
  | Promise _ => js "[object Promise]"
  end.

Inductive Descriptor (E : Type) : Type :=
| DString (label : jsstring)
| DFun (f : E -> Described).
Arguments DString {E} label.
Arguments DFun {E} f.

Definition bracket (s : jsstring) : jsstring := js "[" ++ s ++ js "] ".

Definition tryDescribe {E : Type} (field : option E)
    (descriptor : Descriptor E) : Described :=
  match field with
  | None => Str []
  | Some entity =>
    match descriptor with
    | DString label => Str (bracket label)
    | DFun f =>
      match f entity with
      | Str result => Str result
      | Promise result => Promise (let* str := result in Ok (bracket str))
      end
    end
  end.

Section Descriptors.
Context `{Runtime}.

Definition forwardDescriptor (bot : IBot) (message : Message)
  : Descriptor User :=
  DFun (fun _ => Promise (
    let* u := tryExtractUserFromMessage bot message in
    Ok (js "转发自：" ++ interpolate u))).

Definition replyDescriptor (bot : IBot) : Descriptor Message :=
  DFun (fun repliedMessage => Promise (
    let* u := tryExtractUserFromMessage bot repliedMessage in
    Ok (js "回复给：" ++ interpolate u))).

Definition viaBotDescriptor : Descriptor User :=
  DFun (fun viaBot => Promise (
    Ok (js "发送自：" ++ interpolate (formatUser viaBot)))).

Definition audioDescriptor : Descriptor Opaque := DString (js "音频").

Definition documentDescriptor : Descriptor Document :=
  DFun (fun file =>
    Str (js "文件：" ++ default (js "未知文件") (file_name file))).

Definition animationDescriptor : Descriptor Opaque := DString (js "GIF").

Definition photoDescriptor : Descriptor Opaque := DString (js "图片").

Definition stickerDescriptor : Descriptor Sticker :=
  DFun (fun sticker =>
    Str (js "贴纸：" ++ default (js "无贴纸包") (set_name sticker))).

Definition videoDescriptor : Descriptor Opaque := DString (js "视频").

Definition videoNoteDescriptor : Descriptor Opaque :=
  DString (js "即时视频").

Definition voiceDescriptor : Descriptor Voice :=
  DFun (fun voice =>
    Str (js "语音：" ++ NumberToString (duration voice) ++ js "s")).

Definition contactDescriptor : Descriptor Contact :=
  DFun (fun contact =>
    Str (js "联系人: "
         ++ trim (contact_first_name contact ++ js " "
                  ++ default [] (contact_last_name contact)))).

Definition diceDescriptor : Descriptor Dice :=
  DFun (fun dice =>
    Str (js "骰子：" ++ emoji dice ++ js " - 掷出了 "
         ++ NumberToString (value dice) ++ js " 点")).

Definition gameDescriptor : Descriptor Opaque := DString (js "小游戏").

Definition pollDescriptor : Descriptor Poll :=
  DFun (fun poll => Str (js "投票：" ++ question poll)).

Definition locationDescriptor : Descriptor Location :=
  DFun (fun location =>
    Str (js "位置: " ++ NumberToString (latitude location) ++ js ","
         ++ NumberToString (longitude location))).

Definition venueDescriptor : Descriptor Venue :=
  DFun (fun venue => Str (js "位置: " ++ title venue)).

(** The media kinds, in the order of the array. *)
Inductive MediaKind : Type :=
| KAudio | KDocument | KAnimation | KPhoto | KSticker | KVideo
| KVideoNote | KVoice | KContact | KDice | KGame | KPoll | KLocation
| KVenue.



(** The array element of a media kind. *)
Definition kindFragment (message : Message) (k : MediaKind) : jsstring :=
  match k with
  | KAudio => element (tryDescribe (audio message) audioDescriptor)
  | KDocument => element (tryDescribe (document message) documentDescriptor)
  | KAnimation =>
    element (tryDescribe (animation message) animationDescriptor)
  | KPhoto => element (tryDescribe (photo message) photoDescriptor)
  | KSticker => element (tryDescribe (sticker message) stickerDescriptor)
  | KVideo => element (tryDescribe (video message) videoDescriptor)
  | KVideoNote =>
    element (tryDescribe (video_note message) videoNoteDescriptor)
  | KVoice => element (tryDescribe (voice message) voiceDescriptor)
  | KContact => element (tryDescribe (contact message) contactDescriptor)
  | KDice => element (tryDescribe (dice message) diceDescriptor)
  | KGame => element (tryDescribe (game message) gameDescriptor)
  | KPoll => element (tryDescribe (poll message) pollDescriptor)
  | KLocation => element (tryDescribe (location message) locationDescriptor)
  | KVenue => element (tryDescribe (venue message) venueDescriptor)
  end.


(** ['text' in message ? message.text
     : 'caption' in message ? message.caption : ''] *)
Definition body (message : Message) : jsstring :=
  match text message with
  | Some t => t
  | None => match caption message with
            | Some c => c
            | None => []
            end
  end.

(** The array [tryDescribeMessage] joins. *)
Definition describeParts (message : Message) (bot : IBot)
    (userFormatter : User -> Result optstring) : Result (list jsstring) :=
  let* sender := userFormatter (default emptyUser (from message)) in
  let* forwarded :=
    await (tryDescribe (forward_from message)
                       (forwardDescriptor bot message)) in
  let* replied :=
    await (tryDescribe (reply_to_message message) (replyDescriptor bot)) in
  let* via := await (tryDescribe (via_bot message) viaBotDescriptor) in
  Ok [ joinElement sender;
       js ": ";
       forwarded;
       replied;
       via;
       element (tryDescribe (audio message) audioDescriptor);
       element (tryDescribe (document message) documentDescriptor);
       element (tryDescribe (animation message) animationDescriptor);
       element (tryDescribe (photo message) photoDescriptor);
       element (tryDescribe (sticker message) stickerDescriptor);
       element (tryDescribe (video message) videoDescriptor);
       element (tryDescribe (video_note message) videoNoteDescriptor);
       element (tryDescribe (voice message) voiceDescriptor);
       element (tryDescribe (contact message) contactDescriptor);
       element (tryDescribe (dice message) diceDescriptor);
       element (tryDescribe (game message) gameDescriptor);
       element (tryDescribe (poll message) pollDescriptor);
       element (tryDescribe (location message) locationDescriptor);
       element (tryDescribe (venue message) venueDescriptor);
       body message ].

Definition tryDescribeMessage (message : Message) (bot : IBot)
    (userFormatter : User -> Result optstring) : Result jsstring :=
  let* parts := describeParts message bot userFormatter in
  Ok (trim (concat parts)).

(** The default value of the [userFormatter] parameter. *)
Definition defaultFormatter (user : User) : Result optstring :=
  Ok (formatUser user).

End Descriptors.

(** A message with no optional capability: no forward, reply or via-bot
    context and no media field. *)
Definition noCapability (message : Message) : Prop :=
  forward_from message = None /\ reply_to_message message = None
  /\ via_bot message = None /\ audio message = None
  /\ document message = None /\ animation message = None
  /\ photo message = None /\ sticker message = None
  /\ video message = None /\ video_note message = None
  /\ voice message = None /\ contact message = None
  /\ dice message = None /\ game message = None /\ poll message = None
  /\ location message = None /\ venue message = None.

(** [user] is the bot: [user.username === bot.botInfo.username]. *)
Definition isBot (bot : IBot) (user : User) : Prop :=
  exists info, botInfo bot = Some info /\ username user = username info.

(** A message with nothing but the given fields. *)
Definition bare (sender : option User) (text_ caption_ : optstring)
  : Message :=
  {| from := sender; forward_from := None; reply_to_message := None;
     via_bot := None; audio := None; document := None; animation := None;
     photo := None; sticker := None; video := None; video_note := None;
     voice := None; contact := None; dice := None; game := None;
     poll := None; location := None; venue := None;
     text := text_; caption := caption_ |}.

(** *** Sample users, bots and messages *)

Definition userA : User :=
  {| first_name := Some (js "A"); last_name := None; username := None |}.

Definition tietie : User :=
  {| first_name := Some (js "tietie"); last_name := None;
     username := Some (js "tietie_bot") |}.

Definition theBot : IBot := {| botInfo := Some tietie |}.

(** A document named [x.pdf] sent by A, without text. *)
Definition namedDocument : Message :=
  {| from := Some userA; forward_from := None; reply_to_message := None;
     via_bot := None; audio := None;
     document := Some {| file_name := Some (js "x.pdf") |};
     animation := None; photo := None; sticker := None; video := None;
     video_note := None; voice := None; contact := None; dice := None;
     game := None; poll := None; location := None; venue := None;
     text := None; caption := None |}.

(** The same without a file name. *)
Definition unnamedDocument : Message :=
  {| from := Some userA; forward_from := None; reply_to_message := None;
     via_bot := None; audio := None;
     document := Some {| file_name := None |};
     animation := None; photo := None; sticker := None; video := None;
     video_note := None; voice := None; contact := None; dice := None;
     game := None; poll := None; location := None; venue := None;
     text := None; caption := None |}.


(** A photo the bot sent: it has a caption and no [text]. *)
Definition botPhoto : Message :=
  {| from := Some tietie; forward_from := None; reply_to_message := None;
     via_bot := None; audio := None; document := None; animation := None;
     photo := Some (opaque 3); sticker := None; video := None;
     video_note := None; voice := None; contact := None; dice := None;
     game := None; poll := None; location := None; venue := None;
     text := None; caption := Some (js "Alice: look") |}.

(** A reply [nice] by A to [replied]. *)
Definition replyTo (replied : Message) : Message :=
  {| from := Some userA; forward_from := None;
     reply_to_message := Some replied;
     via_bot := None; audio := None; document := None; animation := None;
     photo := None; sticker := None; video := None; video_note := None;
     voice := None; contact := None; dice := None; game := None;
     poll := None; location := None; venue := None;
     text := Some (js "nice"); caption := None |}.

(** A formatter that answers with a nickname starting with a space. *)
Definition nicknameFormatter (_ : User) : Result optstring :=
  Ok (Some (js " Bob")).

End Describe.

(** ** The Discord link and nickname store *)

Module Store.

(** The two tables; a table is the list of its rows in insertion order.
    Neither table declares a key, so a table can hold several rows for
    one chat. *)
Record LinkRow : Type := {
  chat_id : jsstring;
  discord_channel_id : jsstring
}.

Record NickRow : Type := {
  nick_chat_id : jsstring;
  user_id : jsstring;
  nickname : jsstring
}.

Record Database : Type := {
  discord_link_v2 : list LinkRow;
  discord_nick : list NickRow
}.

(** The database after the two [CREATE TABLE IF NOT EXISTS] statements
    ran on a fresh file. *)
Definition emptyDatabase : Database :=
  {| discord_link_v2 := []; discord_nick := [] |}.

Record Link : Type := { chatId : jsstring; discordChannelId : jsstring }.

(** [WHERE chat_id = ?] *)
Definition linkMatches (chatId : jsstring) (row : LinkRow) : bool :=
  bool_decide (chat_id row = chatId).

(** [WHERE chat_id = ? AND user_id = ?] *)
Definition nickMatches (chatId userId : jsstring) (row : NickRow) : bool :=
  bool_decide (nick_chat_id row = chatId) && bool_decide (user_id row = userId).

(** [db.get]: the first row of the result, [None] when it is empty. *)
Definition get {Row : Type} (where_ : Row -> bool) (table : list Row)
  : option Row :=
  List.find where_ table.

(** [UPDATE ... SET ... WHERE ...] *)
Definition update {Row : Type} (where_ : Row -> bool) (set : Row -> Row)
    (table : list Row) : list Row :=
  map (fun row => if where_ row then set row else row) table.

(** [INSERT INTO ... VALUES ...] *)
Definition insert {Row : Type} (row : Row) (table : list Row) : list Row :=
  table ++ [row].

Definition getDiscordLinks (db : Database) : list Link :=
  map (fun row => {| chatId := chat_id row;
                     discordChannelId := discord_channel_id row |})
      (discord_link_v2 db).

Definition setDiscordLink (chatId discordChannelId : jsstring)
    (db : Database) : Database :=
  let exists_ := get (linkMatches chatId) (discord_link_v2 db) in
  match exists_ with
  | Some _ =>
    {| discord_link_v2 :=
         update (linkMatches chatId)
                (fun row => {| chat_id := chat_id row;
                               discord_channel_id := discordChannelId |})
                (discord_link_v2 db);
       discord_nick := discord_nick db |}
  | None =>
    {| discord_link_v2 :=
         insert {| chat_id := chatId;
                   discord_channel_id := discordChannelId |}
                (discord_link_v2 db);
       discord_nick := discord_nick db |}
  end.

Definition setDiscordNickname (chatId userId nickname_ : jsstring)
    (db : Database) : Database :=
  let exists_ := get (nickMatches chatId userId) (discord_nick db) in
  match exists_ with
  | Some _ =>
    {| discord_link_v2 := discord_link_v2 db;
       discord_nick :=
         update (nickMatches chatId userId)
                (fun row => {| nick_chat_id := nick_chat_id row;
                               user_id := user_id row;
                               nickname := nickname_ |})
                (discord_nick db) |}
  | None =>
    {| discord_link_v2 := discord_link_v2 db;
       discord_nick :=
         insert {| nick_chat_id := chatId; user_id := userId;
                   nickname := nickname_ |}
                (discord_nick db) |}
  end.

(** [result && result.nickname]: [None] is [undefined]. *)
Definition getDiscordNickname (chatId userId : jsstring) (db : Database)
  : optstring :=
  let result := get (nickMatches chatId userId) (discord_nick db) in
  match result with
  | None => None
  | Some row => Some (nickname row)
  end.

(** The calls that write to the store, and a history of them. *)
Inductive Call : Type :=
| SetDiscordLink (chatId discordChannelId : jsstring)
| SetDiscordNickname (chatId userId nickname_ : jsstring).

Definition perform (db : Database) (call : Call) : Database :=
  match call with
  | SetDiscordLink chatId discordChannelId =>
    setDiscordLink chatId discordChannelId db
  | SetDiscordNickname chatId userId nickname_ =>
    setDiscordNickname chatId userId nickname_ db
  end.

Definition performAll (calls : list Call) (db : Database) : Database :=
  fold_left perform calls db.

(** The rows of the link table for one chat. *)
Definition linkRowsOf (chatId : jsstring) (db : Database) : list LinkRow :=
  List.filter (linkMatches chatId) (discord_link_v2 db).

Definition atMostOneRow (chatId : jsstring) (db : Database) : Prop :=
  (length (linkRowsOf chatId db) <= 1)%nat.

Definition setsNicknameOf (chatId userId : jsstring) (call : Call) : Prop :=
  match call with
  | SetDiscordNickname c u _ => c = chatId /\ u = userId
  | SetDiscordLink _ _ => False
  end.

(** The nickname table has no row for the pair. *)
Definition noNickRow (chatId userId : jsstring) (db : Database) : Prop :=
  List.find (nickMatches chatId userId) (discord_nick db) = None.

End Store.

(** ** The generic message model *)

Module Base.

Inductive MediaType : Type := sticker | photo | video | file.

Definition mediaTypeName (t : MediaType) : jsstring :=
  match t with
  | sticker => js "sticker"
  | photo => js "photo"
  | video => js "video"
  | file => js "file"
  end.

Module MessageToSend.
Record t : Type := {
  clientName : jsstring;
  text : jsstring;
  chatId : jsstring;
  mediaType : option MediaType;
  mediaUrl : optstring;
  mediaMimeType : optstring;
  mediaSize : option JSNum;
  messageIdReplied : optstring;
  rawMessageExtra : option Opaque
}.
End MessageToSend.

Module GenericMessage.
(** [rawMessageExtra] is not a field of the interface; the object
    [sendMessage] returns carries it over from the message it spreads. *)
Record t (T U : Type) : Type := {
  clientName : jsstring;
  text : jsstring;
  userId : jsstring;
  userName : jsstring;
  chatId : jsstring;
  messageId : jsstring;
  unixDate : JSNum;
  isServiceMessage : option bool;
  mediaType : option MediaType;
  mediaUrl : optstring;
  mediaMimeType : optstring;
  mediaSize : option JSNum;
  messageIdReplied : optstring;
  rawMessage : T;
  rawUser : U;
  rawMessageReplied : option T;
  rawMessageExtra : option Opaque
}.
Arguments clientName {T U} _.
Arguments text {T U} _.
Arguments userId {T U} _.
Arguments userName {T U} _.
Arguments chatId {T U} _.
Arguments messageId {T U} _.
Arguments unixDate {T U} _.
Arguments isServiceMessage {T U} _.
Arguments mediaType {T U} _.
Arguments mediaUrl {T U} _.
Arguments mediaMimeType {T U} _.
Arguments mediaSize {T U} _.
Arguments messageIdReplied {T U} _.
Arguments rawMessage {T U} _.
Arguments rawUser {T U} _.
Arguments rawMessageReplied {T U} _.
Arguments rawMessageExtra {T U} _.
End GenericMessage.

End Base.

(** ** The Matrix adapter *)

Module Matrix.
Import Base.

Record IWhoAmI : Type := { user_id : jsstring; device_id : optstring }.

Record EventInfo : Type := {
  h : Z;
  w : Z;
  mimetype : optstring;
  size : option JSNum
}.

(** [relates_to] is the event id under ['m.relates_to']['m.reply_to']. *)
Record EventContent : Type := {
  body : jsstring;
  url : optstring;
  info : EventInfo;
  msgtype : jsstring;
  relates_to : optstring
}.

(** [rawMessage] of a sent message: [{ id, content }] *)
Record RawSent : Type := { id : jsstring; content : jsstring }.

(** What a fetched resource answers to the calls the adapter makes. *)
Record Resource : Type := {
  headers_get : jsstring -> optstring;
  arrayBuffer : Result (list N)
}.

Record Response : Type := { content_uri : jsstring }.

(** The requests the adapter issues, in the order it issues them. *)
Inductive Effect : Type :=
| DoRequest (method path : jsstring) (payload : option (list N))
            (contentType : optstring)
| Fetch (url : optstring)
| SendEvent (roomId eventType : jsstring) (content : EventContent).

(** The home server, the network and the clock, as the answers they give.
    [mxcToHttp] is the SDK's conversion of a media reference to a download
    address, which throws on a reference it cannot convert; [clock] is the
    value of [Date.now() / 1000]. *)
Record World : Type := {
  doRequest : jsstring -> jsstring -> Result Response;
  fetch : optstring -> Result Resource;
  sendEvent : jsstring -> jsstring -> EventContent -> Result jsstring;
  mxcToHttp : jsstring -> Result jsstring;
  clock : JSNum
}.

(** A started, not awaited upload (the [async] function
    [uploadMediaAsync] calls and drops). *)
Record Task : Type := { task_url : optstring; task_mxcUri : jsstring }.

(** The mutable state of a [MatrixUserBotClient], with the requests issued
    so far and the uploads started so far.  The key of [cachedMedia] is
    the [url] argument, which is [message.mediaUrl!] and so possibly
    [undefined]. *)
Record Client : Type := {
  botInfo : option IWhoAmI;
  cachedMedia : gmap optstring jsstring;
  issued : list Effect;
  started : list Task
}.

(** Computations over the client that may throw. *)
Definition M (A : Type) : Type := Client -> Result A * Client.

Definition ret {A} (a : A) : M A := fun c => (Ok a, c).

Definition throw {A} (e : Exception) : M A := fun c => (Throw e, c).

Definition bind {A B} (m : M A) (k : A -> M B) : M B :=
  fun c => match m c with
           | (Ok a, c') => k a c'
           | (Throw e, c') => (Throw e, c')
           end.

Definition liftR {A} (r : Result A) : M A := fun c => (r, c).

Definition issue (e : Effect) : M unit :=
  fun c => (Ok tt, {| botInfo := botInfo c; cachedMedia := cachedMedia c;
                      issued := issued c ++ [e]; started := started c |}).

Definition start (t : Task) : M unit :=
  fun c => (Ok tt, {| botInfo := botInfo c; cachedMedia := cachedMedia c;
                      issued := issued c; started := started c ++ [t] |}).

Definition cacheSet (url : optstring) (mxcUri : jsstring) : M unit :=
  fun c => (Ok tt, {| botInfo := botInfo c;
                      cachedMedia := <[url := mxcUri]> (cachedMedia c);
                      issued := issued c; started := started c |}).

Definition cacheGet (url : optstring) : M optstring :=
  fun c => (Ok (cachedMedia c !! url), c).

Definition getBotInfo : M (option IWhoAmI) :=
  fun c => (Ok (botInfo c), c).

Notation "'do*' x ':=' m 'in' k" := (bind m (fun x => k))
  (at level 10, x name, m at level 100, k at level 200).

(** [a ?? b] *)
Definition nullish (a b : optstring) : optstring :=
  match a with
  | Some _ => a
  | None => b
  end.

(** A string is truthy when it is defined and not empty. *)
Definition truthy (v : optstring) : bool :=
  match v with
  | Some (_ :: _) => true
  | _ => false
  end.

(** The characters [.] does not match in a regular expression. *)
Definition isLineTerminator (c : N) : bool :=
  (c =? 0x0A) || (c =? 0x0D) || (c =? 0x2028) || (c =? 0x2029).

(** [/^mxc:\/\/(.*?)\/(.+)$/.exec(mxcUri)]: the server name is what lies
    between [mxc://] and the first slash, the media id is the non-empty
    rest; no line terminator may occur. *)
Definition mxcParts (mxcUri : jsstring) : option (jsstring * jsstring) :=
  if startsWith (js "mxc://") mxcUri then
    let rest := drop 6 mxcUri in
    if existsb isLineTerminator rest then None
    else
      let serverName := splitHead (js "/") rest in
      match drop (length serverName) rest with
      | _ :: ((_ :: _) as mediaId) => Some (serverName, mediaId)
      | _ => None
      end
  else None.

Definition createPath : jsstring := js "/_matrix/media/v1/create".

Definition uploadPath (serverName mediaId : jsstring) : jsstring :=
  js "/_matrix/media/v3/upload/" ++ serverName ++ js "/" ++ mediaId.

Section Adapter.
Context `{Runtime}.
Variable world : World.

(** [Number(resource.headers.get('Content-Length')
     ?? resource.headers.get('content-length') ?? '0')] *)
Definition contentLengthOf (resource : Resource) : JSNum :=
  StringToNumber
    (default (js "0")
       (nullish (nullish (headers_get resource (js "Content-Length"))
                         (headers_get resource (js "content-length")))
                (Some (js "0")))).

Definition contentTypeOf (resource : Resource) : optstring :=
  nullish (nullish (headers_get resource (js "Content-Type"))
                   (headers_get resource (js "content-type")))
          (Some (js "application/octet-stream")).

(** The [async] function [uploadMediaAsync] calls and does not await.  It
    runs inside the call up to its first [await]: [startFetch] is that
    part, which issues the fetch; [afterFetch] is what the task does once
    the fetch is answered.  [mxcToHttp] is evaluated for the log line
    between the answered [PUT] and [cachedMedia.set]. *)
Definition startFetch (url : optstring) : M unit := issue (Fetch url).

Definition afterFetch (url : optstring) (mxcUri : jsstring) : M unit :=
  do* resource := liftR (fetch world url) in
  let contentLength := contentLengthOf resource in
  let contentType := contentTypeOf resource in
  if numFalsy contentLength || numGt contentLength (1024 * 1024) then
    ret tt
  else
    do* buffer := liftR (arrayBuffer resource) in
    do* parts := match mxcParts mxcUri with
                 | Some parts => ret parts
                 | None => throw TypeError
                 end in
    let path := uploadPath (fst parts) (snd parts) in
    do* _ := issue (DoRequest (js "PUT") path (Some buffer) contentType) in
    do* _ := liftR (doRequest world (js "PUT") path) in
    do* _ := liftR (mxcToHttp world mxcUri) in
    cacheSet url mxcUri.

(** The whole body of the function. *)
Definition backgroundUpload (url : optstring) (mxcUri : jsstring) : M unit :=
  do* _ := startFetch url in
  afterFetch url mxcUri.

(** In the cached branch too [mxcToHttp] is evaluated for the log line,
    before the reference is returned. *)
Definition uploadMediaAsync (url : optstring) : M jsstring :=
  do* cached := cacheGet url in
  match cached with
  | Some mxcUri =>
    do* _ := liftR (mxcToHttp world mxcUri) in
    ret mxcUri
  | None =>
    do* _ := issue (DoRequest (js "POST") createPath None None) in
    do* res := liftR (doRequest world (js "POST") createPath) in
    let mxcUri := content_uri res in
    do* _ := startFetch url in
    do* _ := start {| task_url := url; task_mxcUri := mxcUri |} in
    ret mxcUri
  end.

(** Running a started upload to its end, from the answer to its fetch on.
    Its promise is dropped: what it throws reaches nobody, only its
    effects on the client remain. *)
Definition runTask (t : Task) (c : Client) : Client :=
  snd (afterFetch (task_url t) (task_mxcUri t) c).

(** Every reference in the cache is one [mxcToHttp] converts. *)
Definition cacheConvertible (c : Client) : Prop :=
  forall url mxcUri,
    cachedMedia c !! url = Some mxcUri ->
    exists http, mxcToHttp world mxcUri = Ok http.

Definition isSticker (t : option MediaType) : bool :=
  match t with
  | Some sticker => true
  | _ => false
  end.

Definition sendMessage (message : MessageToSend.t)
  : M (GenericMessage.t RawSent (option IWhoAmI)) :=
  let isSupportedSticker :=
    isSticker (MessageToSend.mediaType message)
    && bool_decide (MessageToSend.mediaMimeType message
                    = Some (js "image/jpeg")) in
  let matrixMediaType :=
    if isSticker (MessageToSend.mediaType message) && negb isSupportedSticker
    then Some video
    else MessageToSend.mediaType message in
  let matrixEventType :=
    if isSticker matrixMediaType then js "m.sticker"
    else js "m.room.message" in
  do* url_ := match MessageToSend.mediaType message with
              | Some _ =>
                do* mxcUri :=
                  uploadMediaAsync (MessageToSend.mediaUrl message) in
                ret (Some mxcUri)
              | None => ret None
              end in
  let matrixEventContent :=
    {| body := MessageToSend.text message;
       url := url_;
       info := {| h := 160; w := 160;
                  mimetype := MessageToSend.mediaMimeType message;
                  size := MessageToSend.mediaSize message |};
       msgtype :=
         js "m." ++ match matrixMediaType with
                    | Some t => mediaTypeName t
                    | None => js "text"
                    end;
       relates_to :=
         if truthy (MessageToSend.messageIdReplied message)
         then MessageToSend.messageIdReplied message
         else None |} in
  do* _ := issue (SendEvent (MessageToSend.chatId message) matrixEventType
                            matrixEventContent) in
  do* messageId_ :=
    liftR (sendEvent world (MessageToSend.chatId message) matrixEventType
                     matrixEventContent) in
  do* whoami := getBotInfo in
  do* me := match whoami with
            | Some me => ret me
            | None => throw TypeError
            end in
  ret {| GenericMessage.clientName := js "matrix";
         GenericMessage.text := MessageToSend.text message;
         GenericMessage.userId := user_id me;
         GenericMessage.userName := user_id me;
         GenericMessage.chatId := MessageToSend.chatId message;
         GenericMessage.messageId := messageId_;
         GenericMessage.unixDate := clock world;
         GenericMessage.isServiceMessage := None;
         GenericMessage.mediaType := MessageToSend.mediaType message;
         GenericMessage.mediaUrl := MessageToSend.mediaUrl message;
         GenericMessage.mediaMimeType := MessageToSend.mediaMimeType message;
         GenericMessage.mediaSize := MessageToSend.mediaSize message;
         GenericMessage.messageIdReplied :=
           MessageToSend.messageIdReplied message;
         GenericMessage.rawMessage :=
           {| id := messageId_; content := MessageToSend.text message |};
         GenericMessage.rawUser := whoami;
         GenericMessage.rawMessageReplied := None;
         GenericMessage.rawMessageExtra :=
           MessageToSend.rawMessageExtra message |}.

End Adapter.

(** An upload request: a [PUT] issued through [doRequest]. *)
Definition isUpload (e : Effect) : bool :=
  match e with
  | DoRequest method _ _ _ => bool_decide (method = js "PUT")
  | _ => false
  end.

(** *** A sample world, client and message *)

(** A picture of 2,000,000 bytes. *)
Definition bigPicture : Resource :=
  {| headers_get := fun name =>
       if bool_decide (name = js "Content-Length")
       then Some (js "2000000") else None;
     arrayBuffer := Ok [] |}.

(** A home server that answers every request, and a network that serves
    [bigPicture] at every address. *)
Definition busyWorld : World :=
  {| doRequest := fun _ _ => Ok {| content_uri := js "mxc://matrix.org/abc" |};
     fetch := fun _ => Ok bigPicture;
     sendEvent := fun _ _ _ => Ok (js "$event1");
     mxcToHttp := fun mxcUri =>
       Ok (js "https://matrix.org/_matrix/media/v3/download/"
           ++ drop 6 mxcUri);
     clock := Fin (inject_Z 1700000000) |}.

(** A body of 1 MiB and one byte. *)
Definition largeBody : list N := repeat 0 (Z.to_nat 1048577).

(** A resource that declares a length of 1000 and has [largeBody] as its
    body, as a compressed transfer does: the header counts the bytes sent,
    the body is what they decode to. *)
Definition understatedPicture : Resource :=
  {| headers_get := fun name =>
       if bool_decide (name = js "Content-Length")
       then Some (js "1000") else None;
     arrayBuffer := Ok largeBody |}.

(** [busyWorld] with [understatedPicture] at every address. *)
Definition understatingWorld : World :=
  {| doRequest := doRequest busyWorld;
     fetch := fun _ => Ok understatedPicture;
     sendEvent := sendEvent busyWorld;
     mxcToHttp := mxcToHttp busyWorld;
     clock := clock busyWorld |}.

Definition tietieClient : Client :=
  {| botInfo := Some {| user_id := js "@tietie:matrix.org";
                        device_id := None |};
     cachedMedia := ∅;
     issued := [];
     started := [] |}.

(** A photo relayed from Telegram. *)
Definition relayedPhoto : MessageToSend.t :=
  {| MessageToSend.clientName := js "telegram";
     MessageToSend.text := js "A: [图片]";
     MessageToSend.chatId := js "!room:matrix.org";
     MessageToSend.mediaType := Some photo;
     MessageToSend.mediaUrl := Some (js "https://example.org/a.jpg");
     MessageToSend.mediaMimeType := Some (js "image/jpeg");
     MessageToSend.mediaSize := Some (Fin (inject_Z 2000000));
     MessageToSend.messageIdReplied := None;
     MessageToSend.rawMessageExtra := None |}.

(** What [sendMessage] returns for [relayedPhoto]. *)
Definition sentPhoto : GenericMessage.t RawSent (option IWhoAmI) :=
  {| GenericMessage.clientName := js "matrix";
     GenericMessage.text := js "A: [图片]";
     GenericMessage.userId := js "@tietie:matrix.org";
     GenericMessage.userName := js "@tietie:matrix.org";
     GenericMessage.chatId := js "!room:matrix.org";
     GenericMessage.messageId := js "$event1";
     GenericMessage.unixDate := Fin (inject_Z 1700000000);
     GenericMessage.isServiceMessage := None;
     GenericMessage.mediaType := Some photo;
     GenericMessage.mediaUrl := Some (js "https://example.org/a.jpg");
     GenericMessage.mediaMimeType := Some (js "image/jpeg");
     GenericMessage.mediaSize := Some (Fin (inject_Z 2000000));
     GenericMessage.messageIdReplied := None;
     GenericMessage.rawMessage :=
       {| id := js "$event1"; content := js "A: [图片]" |};
     GenericMessage.rawUser :=
       Some {| user_id := js "@tietie:matrix.org"; device_id := None |};
     GenericMessage.rawMessageReplied := None;
     GenericMessage.rawMessageExtra := None |}.

End Matrix.

(** ** Views of the store *)

Module StoreViews.
Import Store.

(** The rows of the nickname table for one user of one chat. *)
Definition nickRowsOf (chatId userId : jsstring) (db : Database)
  : list NickRow :=
  List.filter (nickMatches chatId userId) (discord_nick db).

(** No chat has two link rows and no user of a chat has two nickname
    rows. *)
Definition keysUnique (db : Database) : Prop :=
  (forall chatId, (length (linkRowsOf chatId db) <= 1)%nat)
  /\ (forall chatId userId, (length (nickRowsOf chatId userId db) <= 1)%nat).

(** The links [getDiscordLinks] returns for one chat. *)
Definition linksOf (chatId_ : jsstring) (db : Database) : list Link :=
  List.filter (fun link => bool_decide (chatId link = chatId_))
              (getDiscordLinks db).

End StoreViews.

(** ** Views of the describer *)

Module DescribeViews.
Import Describe.

(** [message] with the [forward_from] field set to [user]. *)
Definition withForward (user : User) (message : Message) : Message :=
  {| from := from message; forward_from := Some user;
     reply_to_message := reply_to_message message;
     via_bot := via_bot message; audio := audio message;
     document := document message; animation := animation message;
     photo := photo message; sticker := sticker message;
     video := video message; video_note := video_note message;
     voice := voice message; contact := contact message;
     dice := dice message; game := game message; poll := poll message;
     location := location message; venue := venue message;
     text := text message; caption := caption message |}.

(** The messages on which [tryExtractUserFromMessage] does not throw:
    those without a sender, and, when the bot knows who it is, those that
    are not from the bot or have a [text]. *)
Definition speakerReadable (bot : IBot) (message : Message) : bool :=
  match from message with
  | None => true
  | Some sender =>
    match botInfo bot with
    | None => false
    | Some info =>
      negb (strictEq (username sender) (username info))
      || bool_decide (is_Some (text message))
    end
  end.

(** The name [formatUser] builds from the first and the last name. *)
Definition profileName (user : User) : jsstring :=
  trim (default [] (first_name user) ++ js " "
        ++ default [] (last_name user)).

End DescribeViews.

(** ** Views of the Matrix adapter *)

Module MatrixViews.
Import Base Matrix.

(** No code unit of the string is a line terminator. *)
Definition oneLine (s : jsstring) : bool :=
  negb (existsb isLineTerminator s).

(** The event type and the message type [sendMessage] chooses. *)
Definition eventTypeOf (message : MessageToSend.t) : jsstring :=
  match MessageToSend.mediaType message with
  | Some sticker =>
    if bool_decide (MessageToSend.mediaMimeType message
                    = Some (js "image/jpeg"))
    then js "m.sticker" else js "m.room.message"
  | _ => js "m.room.message"
  end.

Definition msgtypeOf (message : MessageToSend.t) : jsstring :=
  match MessageToSend.mediaType message with
  | Some sticker =>
    if bool_decide (MessageToSend.mediaMimeType message
                    = Some (js "image/jpeg"))
    then js "m.sticker" else js "m.video"
  | Some photo => js "m.photo"
  | Some video => js "m.video"
  | Some file => js "m.file"
  | None => js "m.text"
  end.

(** *** More samples *)

Definition pictureUrl : optstring := Some (js "https://example.org/a.jpg").

(** A picture of three bytes. *)
Definition smallPicture : Resource :=
  {| headers_get := fun name =>
       if bool_decide (name = js "Content-Length") then Some (js "3")
       else if bool_decide (name = js "Content-Type")
            then Some (js "image/png")
            else None;
     arrayBuffer := Ok [1; 2; 3] |}.

(** A resource served without any header. *)
Definition bareResource : Resource :=
  {| headers_get := fun _ => None; arrayBuffer := Ok [1; 2; 3] |}.

Definition worldServing (resource : Resource) (contentUri : jsstring)
  : World :=
  {| doRequest := fun _ _ => Ok {| content_uri := contentUri |};
     fetch := fun _ => Ok resource;
     sendEvent := fun _ _ _ => Ok (js "$event1");
     mxcToHttp := fun mxcUri =>
       Ok (js "https://matrix.org/_matrix/media/v3/download/"
           ++ drop 6 mxcUri);
     clock := Fin (inject_Z 1700000000) |}.

(** A client that has not learnt yet who it is. *)
Definition namelessClient : Client :=
  {| botInfo := None; cachedMedia := ∅; issued := []; started := [] |}.

(** A client that has uploaded the picture before. *)
Definition warmClient : Client :=
  {| botInfo := botInfo tietieClient;
     cachedMedia := {[ pictureUrl := js "mxc://matrix.org/abc" ]};
     issued := []; started := [] |}.

Definition relayedText : MessageToSend.t :=
  {| MessageToSend.clientName := js "telegram";
     MessageToSend.text := js "A: hi";
     MessageToSend.chatId := js "!room:matrix.org";
     MessageToSend.mediaType := None;
     MessageToSend.mediaUrl := None;
     MessageToSend.mediaMimeType := None;
     MessageToSend.mediaSize := None;
     MessageToSend.messageIdReplied := None;
     MessageToSend.rawMessageExtra := None |}.

(** A sticker in WebP, not in JPEG. *)
Definition relayedSticker : MessageToSend.t :=
  {| MessageToSend.clientName := js "telegram";
     MessageToSend.text := js "A: [贴纸]";
     MessageToSend.chatId := js "!room:matrix.org";
     MessageToSend.mediaType := Some sticker;
     MessageToSend.mediaUrl := pictureUrl;
     MessageToSend.mediaMimeType := Some (js "image/webp");
     MessageToSend.mediaSize := None;
     MessageToSend.messageIdReplied := None;
     MessageToSend.rawMessageExtra := None |}.

End MatrixViews.

(** ** The Matrix adapter: incoming events, edits and the bot's identity *)

Module MatrixEvents.
Import Base Matrix.

(** A room event as the SDK hands it over.  The adapter takes it as
    [any]: every field of the content it reads may be missing. *)
Module ReplyTarget.
Record t : Type := { event_id : optstring }.
End ReplyTarget.

(** The value under ['m.relates_to']. *)
Module RelatesTo.
Record t : Type := {
  rel_type : optstring;
  event_id : optstring;
  in_reply_to : option ReplyTarget.t;
  reply_to : option ReplyTarget.t
}.
End RelatesTo.

(** The value under ['m.new_content']. *)
Module NewContent.
Record t : Type := { body : optstring; msgtype : optstring }.
End NewContent.

Module Info.
Record t : Type := { mimetype : optstring }.
End Info.

Module Content.
Record t : Type := {
  body : optstring;
  url : optstring;
  info : option Info.t;
  msgtype : optstring;
  new_content : option NewContent.t;
  relates_to : option RelatesTo.t
}.
End Content.

Module RoomEvent.
Record t : Type := {
  content : Content.t;
  sender : jsstring;
  event_id : jsstring;
  origin_server_ts : JSNum;
  author : option Opaque
}.
End RoomEvent.

(** What the lookup [({ image: 'photo', video: 'video' })[key] || 'file']
    gives: a media type, or a member the object literal inherits from
    [Object.prototype]. *)
Inductive Looked : Type :=
| Media (t : MediaType)
| Inherited (key : jsstring).

Definition objectPrototypeKeys : list jsstring :=
  [js "constructor"; js "hasOwnProperty"; js "isPrototypeOf";
   js "propertyIsEnumerable"; js "toLocaleString"; js "toString";
   js "valueOf"; js "__proto__"; js "__defineGetter__";
   js "__defineSetter__"; js "__lookupGetter__"; js "__lookupSetter__"].

Definition lookupMediaType (attachmentType : jsstring) : Looked :=
  if bool_decide (attachmentType = js "image") then Media photo
  else if bool_decide (attachmentType = js "video") then Media video
  else if bool_decide (attachmentType ∈ objectPrototypeKeys)
       then Inherited attachmentType
       else Media file.

(** The message [transformMessage] builds.  It is declared a
    [GenericMessage]; the fields read off the event are [undefined] when
    the event lacks them. *)
Module Incoming.
Record t : Type := {
  clientName : jsstring;
  text : optstring;
  userId : jsstring;
  userName : optstring;
  chatId : jsstring;
  messageId : optstring;
  mediaType : option Looked;
  mediaUrl : optstring;
  messageIdReplied : optstring;
  rawMessage : RoomEvent.t;
  rawUser : option Opaque;
  rawMessageReplied : option ReplyTarget.t;
  unixDate : JSNum
}.
End Incoming.

Record Profile : Type := { displayname : optstring }.

(** The SDK calls [transformMessage] makes, and the division
    [origin_server_ts / 1000]. *)
Record Homeserver : Type := {
  getUserProfile : jsstring -> Result Profile;
  mxcToHttp : optstring -> Result jsstring;
  seconds : JSNum -> JSNum
}.

(** [message.content.info?.mimetype?.split('/')[0]] *)
Definition attachmentTypeOf (message : RoomEvent.t) : optstring :=
  match Content.info (RoomEvent.content message) with
  | None => None
  | Some info_ =>
    match Info.mimetype info_ with
    | None => None
    | Some mimetype_ => Some (splitHead (js "/") mimetype_)
    end
  end.

(** [content['m.relates_to']?.['m.in_reply_to']] *)
Definition inReplyTo (message : RoomEvent.t) : option ReplyTarget.t :=
  match Content.relates_to (RoomEvent.content message) with
  | None => None
  | Some relates => RelatesTo.in_reply_to relates
  end.

Definition transformMessage (hs : Homeserver) (message : RoomEvent.t)
    (roomId : jsstring) : Result Incoming.t :=
  let attachmentType := attachmentTypeOf message in
  let edited := Content.new_content (RoomEvent.content message) in
  let text_ := match edited with
               | Some edited_ => NewContent.body edited_
               | None => Content.body (RoomEvent.content message)
               end in
  let* profile := getUserProfile hs (RoomEvent.sender message) in
  let* messageId_ :=
    match edited with
    | Some _ =>
      match Content.relates_to (RoomEvent.content message) with
      | Some relates => Ok (RelatesTo.event_id relates)
      | None => Throw TypeError
      end
    | None => Ok (Some (RoomEvent.event_id message))
    end in
  let mediaType_ := if truthy attachmentType
                    then Some (lookupMediaType (default [] attachmentType))
                    else None in
  let* mediaUrl_ :=
    if truthy attachmentType
    then let* http := mxcToHttp hs (Content.url (RoomEvent.content message)) in
         Ok (Some http)
    else Ok None in
  Ok {| Incoming.clientName := js "matrix";
        Incoming.text := text_;
        Incoming.userId := RoomEvent.sender message;
        Incoming.userName := displayname profile;
        Incoming.chatId := roomId;
        Incoming.messageId := messageId_;
        Incoming.mediaType := mediaType_;
        Incoming.mediaUrl := mediaUrl_;
        Incoming.messageIdReplied :=
          match inReplyTo message with
          | Some target => ReplyTarget.event_id target
          | None => None
          end;
        Incoming.rawMessage := message;
        Incoming.rawUser := RoomEvent.author message;
        Incoming.rawMessageReplied := inReplyTo message;
        Incoming.unixDate := seconds hs (RoomEvent.origin_server_ts message) |}.

(** What the handler of [room.message] emits. *)
Inductive Emitted : Type :=
| EmitMessage (message : Incoming.t)
| EmitEditMessage (message : Incoming.t).

(** The handler the constructor registers for [room.message]; [None] when
    it emits nothing. *)
Definition onRoomMessage (hs : Homeserver) (botInfo_ : option IWhoAmI)
    (roomId : jsstring) (message : RoomEvent.t) : Result (option Emitted) :=
  let* transformedMessage := transformMessage hs message roomId in
  if bool_decide (Some (Incoming.userId transformedMessage)
                  = option_map user_id botInfo_)
  then Ok None
  else
    match Content.new_content (RoomEvent.content message) with
    | Some _ => Ok (Some (EmitEditMessage transformedMessage))
    | None => Ok (Some (EmitMessage transformedMessage))
    end.

(** The event was sent by the client itself, and the client knows who
    it is: [message.sender === this.botInfo?.user_id]. *)
Definition isOwnEvent (botInfo_ : option IWhoAmI) (message : RoomEvent.t)
  : Prop :=
  exists me, botInfo_ = Some me /\ RoomEvent.sender message = user_id me.

Module MessageToEdit.
(** [MessageToEdit extends MessageToSend] *)
Record t : Type := {
  base : MessageToSend.t;
  messageId : jsstring;
  hideEditedFlag : option bool
}.
End MessageToEdit.

(** The content [editMessage] sends (MSC2676). *)
Definition editContent (message : MessageToEdit.t) : Content.t :=
  {| Content.body :=
       Some (js "* " ++ MessageToSend.text (MessageToEdit.base message));
     Content.url := None;
     Content.info := None;
     Content.msgtype := Some (js "m.text");
     Content.new_content :=
       Some {| NewContent.body :=
                 Some (MessageToSend.text (MessageToEdit.base message));
               NewContent.msgtype := Some (js "m.text") |};
     Content.relates_to :=
       Some {| RelatesTo.rel_type := Some (js "m.replace");
               RelatesTo.event_id := Some (MessageToEdit.messageId message);
               RelatesTo.in_reply_to := None;
               RelatesTo.reply_to := None |} |}.

(** [editMessage], given what [bot.sendEvent] answers. *)
Definition editMessage
    (sendEvent_ : jsstring -> jsstring -> Content.t -> Result jsstring)
    (message : MessageToEdit.t) : Result unit :=
  let* _ := sendEvent_ (MessageToSend.chatId (MessageToEdit.base message))
                       (js "m.room.message") (editContent message) in
  Ok tt.

(** The content [sendMessage] builds, as the object it is: [undefined]
    members are no members, and the reply goes under ['m.reply_to']. *)
Definition wireContent (content_ : EventContent) : Content.t :=
  {| Content.body := Some (body content_);
     Content.url := url content_;
     Content.info := Some {| Info.mimetype := mimetype (info content_) |};
     Content.msgtype := Some (msgtype content_);
     Content.new_content := None;
     Content.relates_to :=
       match relates_to content_ with
       | Some replied =>
         Some {| RelatesTo.rel_type := None;
                 RelatesTo.event_id := None;
                 RelatesTo.in_reply_to := None;
                 RelatesTo.reply_to :=
                   Some {| ReplyTarget.event_id := Some replied |} |}
       | None => None
       end |}.

(** The event another client receives for a content sent to the room. *)
Definition delivered (content_ : Content.t) (sender_ eventId : jsstring)
    (timestamp : JSNum) : RoomEvent.t :=
  {| RoomEvent.content := content_;
     RoomEvent.sender := sender_;
     RoomEvent.event_id := eventId;
     RoomEvent.origin_server_ts := timestamp;
     RoomEvent.author := None |}.

(** [fetchBotInfo], given the successive answers of [getWhoAmI]: a
    failure schedules the next attempt, an answer ends the attempts.  The
    result is the client once these answers are used up, and the number
    of attempts made. *)
Fixpoint fetchBotInfo (answers : list (Result IWhoAmI)) (c : Client)
  : Client * nat :=
  match answers with
  | [] => (c, 0%nat)
  | Ok me :: _ =>
    ({| botInfo := Some me; cachedMedia := cachedMedia c;
        issued := issued c; started := started c |}, 1%nat)
  | Throw _ :: later =>
    let (c', attempts) := fetchBotInfo later c in (c', S attempts)
  end.

(** An answer of [getWhoAmI] that is a failure. *)
Definition isFailure {A} (r : Result A) : Prop :=
  match r with
  | Ok _ => False
  | Throw _ => True
  end.

(** *** Samples *)

Definition friendlyServer : Homeserver :=
  {| getUserProfile := fun _ => Ok {| displayname := Some (js "Alice") |};
     mxcToHttp := fun _ => Ok (js "https://matrix.org/_matrix/media/x");
     seconds := fun ts => match ts with
                          | Fin q => Fin (q / inject_Z 1000)
                          | _ => ts
                          end |}.

(** An answer to [relayedText] as [sendMessage] would send it. *)
Definition sampleReply : EventContent :=
  {| body := js "A: hi";
     url := None;
     info := {| h := 160; w := 160; mimetype := None; size := None |};
     msgtype := js "m.text";
     relates_to := Some (js "$event0") |}.

(** An event whose MIME type starts with [constructor]. *)
Definition oddEvent : RoomEvent.t :=
  delivered {| Content.body := Some (js "x");
               Content.url := Some (js "mxc://matrix.org/abc");
               Content.info :=
                 Some {| Info.mimetype := Some (js "constructor/x") |};
               Content.msgtype := Some (js "m.file");
               Content.new_content := None;
               Content.relates_to := None |}
            (js "@alice:matrix.org") (js "$event2")
            (Fin (inject_Z 1700000000000)).

Definition sampleEdit : MessageToEdit.t :=
  {| MessageToEdit.base := MatrixViews.relayedText;
     MessageToEdit.messageId := js "$event1";
     MessageToEdit.hideEditedFlag := None |}.

End MatrixEvents.

(** ** The default command *)

Module DefaultCommand.

Module Entity.
(** A message entity; [offset] and [length] count UTF-16 code units. *)
Record t : Type := {
  type : jsstring;
  offset : nat;
  length : nat;
  url : optstring
}.
End Entity.

#[local] Set Warnings "-register-all".

(** The fields of a Telegram message the command reads. *)
Inductive Message : Type := mkMessage {
  from : option Describe.User;
  text : optstring;
  entities : option (list Entity.t);
  reply_to_message : option Message
}.

Record Context : Type := { message : Message }.

(** [\w] and [[\w\-]] *)
Definition isWordChar (c : N) : bool :=
  ((0x30 <=? c) && (c <=? 0x39)) || ((0x41 <=? c) && (c <=? 0x5A))
  || ((0x61 <=? c) && (c <=? 0x7A)) || (c =? 0x5F).

Definition isCommandChar (c : N) : bool := isWordChar c || (c =? 0x2D).

Fixpoint skipCommandChars (s : jsstring) : jsstring :=
  match s with
  | c :: s' => if isCommandChar c then skipCommandChars s' else s
  | [] => []
  end.

(** [/^\/[\w\-]+ /.test(text)]: a slash, one or more command characters
    and a space. *)
Definition hasArguments (text_ : jsstring) : bool :=
  match text_ with
  | slash :: ((c :: _) as rest) =>
    (slash =? 0x2F) && isCommandChar c
    && match skipCommandChars rest with
       | x :: _ => x =? 0x20
       | [] => false
       end
  | _ => false
  end.

(** [text.replace(/([\u0000-ÿ])/g, '\\$1')] *)
Definition escape (text_ : jsstring) : jsstring :=
  flat_map (fun c => if c <=? 0xFF then [0x5C; c] else [c]) text_.

Definition formatUser (user : Describe.User) (customName : optstring)
  : jsstring :=
  js "["
  ++ escape
       (interpolate
          (orElse customName
             (Some (trim (interpolate (Describe.first_name user) ++ js " "
                          ++ interpolate
                               (orElse (Describe.last_name user)
                                       (Some [])))))))
  ++ js "](https://t.me/" ++ interpolate (Describe.username user) ++ js ")".

(** [s.split('/').pop()]: what follows the last slash. *)
Definition lastSegment (s : jsstring) : jsstring :=
  rev (splitHead (js "/") (rev s)).

(** A value the code dereferences: [undefined] throws. *)
Definition required {A : Type} (v : option A) : Result A :=
  match v with
  | Some a => Ok a
  | None => Throw TypeError
  end.

Definition extractUser (message_ : Message) (entity : Entity.t)
  : Result Describe.User :=
  let* text_ := required (text message_) in
  let* url_ := required (Entity.url entity) in
  Ok {| Describe.first_name :=
          Some (take (Entity.length entity)
                     (drop (Entity.offset entity) text_));
        Describe.last_name := None;
        Describe.username := Some (lastSegment url_) |}.

Definition isTextLink (entity : Entity.t) : bool :=
  bool_decide (Entity.type entity = js "text_link").

(** The exported function; [Ok None] is a return without a value. *)
Definition default (ctx : Context) (bot : Describe.IBot)
  : Result optstring :=
  let message_ := message ctx in
  if hasArguments (interpolate (text message_)) then Ok None
  else
    let* sender := required (from message_) in
    let senderLink := formatUser sender None in
    let replied := reply_to_message message_ in
    let* repliedFrom :=
      match replied with
      | Some replied_ =>
        let* user := required (from replied_) in Ok (Some user)
      | None => Ok None
      end in
    let* repliedBotMsg :=
      match replied, repliedFrom with
      | Some replied_, Some user =>
        let* info := required (Describe.botInfo bot) in
        if Describe.strictEq (Describe.username user)
                             (Describe.username info)
        then Ok (Some replied_) else Ok None
      | _, _ => Ok None
      end in
    let lastMentionEntity :=
      match repliedBotMsg with
      | Some replied_ =>
        head (List.filter isTextLink (default [] (entities replied_)))
      | None => None
      end in
    let* lastMentionUser :=
      match repliedBotMsg, lastMentionEntity with
      | Some replied_, Some entity =>
        let* user := extractUser replied_ entity in Ok (Some user)
      | _, _ => Ok None
      end in
    let receiver :=
      match lastMentionUser with
      | Some user => user
      | None => match repliedFrom with
                | Some user => user
                | None => sender
                end
      end in
    let receiverLink :=
      formatUser receiver
        (if Describe.strictEq (Describe.username receiver)
                              (Describe.username sender)
         then Some (js "自己") else None) in
    let* text_ := required (text message_) in
    let action := drop 1 text_ in
    Ok (Some (senderLink ++ js " " ++ action ++ js "了 " ++ receiverLink
              ++ js "！")).

(** *** Samples *)

Definition alice : Describe.User :=
  {| Describe.first_name := Some (js "Alice"); Describe.last_name := None;
     Describe.username := Some (js "alice") |}.

Definition bob : Describe.User :=
  {| Describe.first_name := Some (js "Bob"); Describe.last_name := None;
     Describe.username := Some (js "bob") |}.

(** Two users without a username. *)
Definition carol : Describe.User :=
  {| Describe.first_name := Some (js "Carol"); Describe.last_name := None;
     Describe.username := None |}.

Definition dave : Describe.User :=
  {| Describe.first_name := Some (js "Dave"); Describe.last_name := None;
     Describe.username := None |}.

Definition says (user : Describe.User) (text_ : jsstring)
    (replied : option Message) : Context :=
  {| message := {| from := Some user; text := Some text_;
                   entities := None; reply_to_message := replied |} |}.

(** A message of Dave. *)
Definition daveMessage : Message :=
  {| from := Some dave; text := Some (js "hello"); entities := None;
     reply_to_message := None |}.

(** A photo of Alice: it has no [text]. *)
Definition alicePhoto : Context :=
  {| message := {| from := Some alice; text := None; entities := None;
                   reply_to_message := None |} |}.

(** What the bot answered to Alice's [/hug] in reply to Bob. *)
Definition botAnswer : Message :=
  {| from := Some Describe.tietie;
     text := Some (js "Alice hug了 Bob！");
     entities :=
       Some [ {| Entity.type := js "text_link"; Entity.offset := 0;
                 Entity.length := 5;
                 Entity.url := Some (js "https://t.me/alice") |};
              {| Entity.type := js "text_link"; Entity.offset := 11;
                 Entity.length := 3;
                 Entity.url := Some (js "https://t.me/bob") |} ];
     reply_to_message := None |}.

End DefaultCommand.

(** * Properties *)

(** ** Strings *)

Module JSFacts.

Arguments js : simpl never.

Example js_ascii : js "A: " = [65; 58; 32].
Proof. reflexivity. Qed.

Example js_cjk : js "[文件：" = [0x5B; 0x6587; 0x4EF6; 0xFF1A].
Proof. reflexivity. Qed.

Example trim_both_ends : trim (js "  a b ") = js "a b".
Proof. reflexivity. Qed.

Example trim_ideographic_space : trim ([0x3000] ++ js "a" ++ [0xA0]) = js "a".
Proof. reflexivity. Qed.

Example splitHead_first_separator :
  splitHead (js ": ") (js "Alice: hello: x") = js "Alice".
Proof. reflexivity. Qed.

Example splitHead_no_separator : splitHead (js ": ") (js "hello") = js "hello".
Proof. reflexivity. Qed.

Lemma trimStart_app_head (s t : jsstring) (c : N) :
  isWhiteSpace c = false ->
  trimStart (s ++ c :: t) = trimStart s ++ c :: t.
Proof.
  intros Hc. induction s as [|a s IH]; simpl.
  - now rewrite Hc.
  - destruct (isWhiteSpace a); [exact IH | reflexivity].
Qed.

Lemma trimStart_idem (s : jsstring) : trimStart (trimStart s) = trimStart s.
Proof.
  induction s as [|a s IH]; simpl; [reflexivity|].
  destruct (isWhiteSpace a) eqn:E; [exact IH|].
  simpl. now rewrite E.
Qed.

Lemma trimStart_keep_app (s t : jsstring) :
  trimStart s = s -> s <> [] -> trimStart (s ++ t) = s ++ t.
Proof.
  destruct s as [|a s]; [congruence|].
  simpl. destruct (isWhiteSpace a) eqn:E; [|reflexivity].
  intros Heq _. exfalso.
  assert (Hlen : (length (trimStart s) <= length s)%nat).
  { clear. induction s as [|b s IH]; simpl; [lia|].
    destruct (isWhiteSpace b); simpl; lia. }
  rewrite Heq in Hlen. simpl in Hlen. lia.
Qed.

Lemma trimEnd_snoc (s : jsstring) (c : N) :
  isWhiteSpace c = false -> trimEnd (s ++ [c]) = s ++ [c].
Proof.
  intros Hc. unfold trimEnd. rewrite rev_app_distr. simpl. rewrite Hc.
  simpl. now rewrite rev_involutive.
Qed.

Lemma trimEnd_snoc_space (s : jsstring) (c : N) :
  isWhiteSpace c = true -> trimEnd (s ++ [c]) = trimEnd s.
Proof.
  intros Hc. unfold trimEnd. rewrite rev_app_distr. simpl. now rewrite Hc.
Qed.

Lemma trimEnd_keep_app (s t : jsstring) :
  trimEnd t = t -> t <> [] -> trimEnd (s ++ t) = s ++ t.
Proof.
  unfold trimEnd. intros Heq Hne.
  rewrite rev_app_distr.
  assert (Hrt : trimStart (rev t) = rev t).
  { rewrite <- (rev_involutive (trimStart (rev t))). now rewrite Heq. }
  rewrite trimStart_keep_app; [|exact Hrt|].
  - now rewrite <- rev_app_distr, rev_involutive.
  - intros E. apply Hne. rewrite <- (rev_involutive t), E. reflexivity.
Qed.

(** [(s + ': ').trim()] drops the leading white space of [s] and the
    final space. *)
Lemma trim_colon_space (s : jsstring) :
  trim (s ++ js ": ") = trimStart s ++ js ":".
Proof.
  unfold trim. change (js ": ") with [58; 32]. change (js ":") with [58].
  rewrite (trimStart_app_head s [32] 58) by reflexivity.
  change (trimStart s ++ [58; 32]) with (trimStart s ++ [58] ++ [32]).
  rewrite app_assoc.
  rewrite trimEnd_snoc_space by reflexivity.
  now apply trimEnd_snoc.
Qed.

(** A string that neither starts nor ends with white space is its own
    trimmed form, also after a prefix ending in [": "] is put before a
    non-empty body. *)
Lemma trim_sender_body (sender t : jsstring) :
  trimStart sender = sender -> trimEnd t = t -> t <> [] ->
  trim (sender ++ js ": " ++ t) = sender ++ js ": " ++ t.
Proof.
  intros Hs Ht Hne. unfold trim. change (js ": ") with [58; 32].
  change (sender ++ [58; 32] ++ t) with (sender ++ 58 :: (32 :: t)).
  rewrite (trimStart_app_head sender (32 :: t) 58) by reflexivity.
  rewrite Hs.
  change (sender ++ 58 :: 32 :: t) with (sender ++ [58; 32] ++ t).
  rewrite app_assoc. now apply trimEnd_keep_app.
Qed.

Lemma startsWith_app (p s : jsstring) : startsWith p (p ++ s) = true.
Proof.
  induction p as [|a p IH]; simpl; [reflexivity|].
  now rewrite N.eqb_refl.
Qed.

Lemma startsWith_spec (p s : jsstring) :
  startsWith p s = true <-> exists rest, s = p ++ rest.
Proof.
  revert s. induction p as [|a p IH]; intros s; simpl.
  - split; [intros _; now exists s | reflexivity].
  - destruct s as [|b s]; simpl.
    + split; [discriminate | intros [rest Hr]; discriminate].
    + rewrite andb_true_iff, N.eqb_eq, IH. split.
      * intros [-> [rest ->]]. now exists rest.
      * intros [rest Hr]. injection Hr as -> ->. split; [reflexivity|].
        now exists rest.
Qed.

(** [split(sep)[0]] is the part before the first occurrence of [sep]. *)
Lemma splitHead_spec (sep s : jsstring) :
  includes sep s = true ->
  exists rest, s = splitHead sep s ++ sep ++ rest.
Proof.
  induction s as [|c s IH]; simpl.
  - rewrite orb_false_r. intros Hp. rewrite Hp.
    apply startsWith_spec in Hp. destruct Hp as [rest Hr]. now exists rest.
  - destruct (startsWith sep (c :: s)) eqn:Hp; simpl.
    + intros _. apply startsWith_spec in Hp. destruct Hp as [rest Hr].
      now exists rest.
    + intros Hi. destruct (IH Hi) as [rest Hr]. exists rest.
      simpl. now rewrite <- Hr.
Qed.


End JSFacts.

(** ** The message describer *)

Module DescribeProps.
Import Describe JSFacts.

Section WithRuntime.
Context `{Runtime}.


(** With no optional capability every slot between the separator and the
    body is empty. *)
Lemma describeParts_noCapability message bot userFormatter sender :
  noCapability message ->
  userFormatter (default emptyUser (from message)) = Ok sender ->
  describeParts message bot userFormatter
  = Ok ([joinElement sender; js ": "] ++ repeat [] 17 ++ [body message]).
Proof.
  intros Hno Hs. unfold noCapability in Hno.
  destruct Hno as (H1 & H2 & H3 & H4 & H5 & H6 & H7 & H8 & H9 & H10 & H11
                   & H12 & H13 & H14 & H15 & H16 & H17).
  unfold describeParts.
  rewrite Hs, H1, H2, H3, H4, H5, H6, H7, H8, H9, H10, H11, H12, H13, H14,
    H15, H16, H17.
  reflexivity.
Qed.

Lemma concat_noCapability (sender t : jsstring) :
  concat ([sender; js ": "] ++ repeat [] 17 ++ [t]) = sender ++ js ": " ++ t.
Proof. simpl. now rewrite app_nil_r. Qed.

(** A descriptor function that returns a plain string gives the fragment
    as it is: for a document the array element is the label and the file
    name with no bracket around them. *)
Lemma document_fragment message file :
  document message = Some file ->
  kindFragment message KDocument
  = js "文件：" ++ default (js "未知文件") (file_name file).
Proof. intros Hd. cbn [kindFragment]. now rewrite Hd. Qed.

(** A label descriptor gives the bracketed label. *)
Lemma audio_fragment message entity :
  audio message = Some entity -> kindFragment message KAudio = js "[音频] ".
Proof. intros Ha. cbn [kindFragment]. now rewrite Ha. Qed.

(** Looking for the speaker of a message the bot sent throws when the
    message has no [text]. *)
Lemma tryExtractUserFromMessage_throws bot message sender :
  from message = Some sender ->
  isBot bot sender ->
  text message = None ->
  tryExtractUserFromMessage bot message = Throw TypeError.
Proof.
  intros Hfrom [info [Hinfo Hname]] Htext.
  unfold tryExtractUserFromMessage. rewrite Hfrom, Hinfo. cbn [bindR].
  rewrite Hname, Htext.
  destruct (strictEq (username info) (username info)) eqn:E;
    [reflexivity|].
  unfold strictEq in E. destruct (username info); [|discriminate].
  now rewrite bool_decide_eq_true_2 in E.
Qed.

(** So does the describer for every reply to such a message. *)
Lemma reply_to_bot_without_text_throws message replied sender bot
    userFormatter formatted :
  userFormatter (default emptyUser (from message)) = Ok formatted ->
  forward_from message = None ->
  reply_to_message message = Some replied ->
  from replied = Some sender ->
  isBot bot sender ->
  text replied = None ->
  tryDescribeMessage message bot userFormatter = Throw TypeError.
Proof.
  intros Hf Hfwd Hrep Hfrom Hbot Htext.
  unfold tryDescribeMessage, describeParts.
  rewrite Hf, Hfwd, Hrep. cbn [bindR tryDescribe await forwardDescriptor].
  unfold replyDescriptor. cbn [await].
  now rewrite (tryExtractUserFromMessage_throws bot replied sender).
Qed.

(** Without forward and reply context the describer returns whenever the
    formatter does. *)
Lemma describe_without_context_returns message bot userFormatter formatted :
  userFormatter (default emptyUser (from message)) = Ok formatted ->
  forward_from message = None ->
  reply_to_message message = None ->
  exists s, tryDescribeMessage message bot userFormatter = Ok s.
Proof.
  intros Hf Hfwd Hrep. unfold tryDescribeMessage, describeParts.
  rewrite Hf, Hfwd, Hrep. cbn [bindR tryDescribe await].
  destruct (via_bot message); cbn; now eexists.
Qed.

(** C5, as amended.  A message with a sender and a [text] and no optional
    capability is described as the sender, [": "] and the text joined,
    with the white space at both ends trimmed; all seventeen fragment
    slots in between are empty.  When the formatted sender does not start
    with white space and the text is not empty and does not end with
    white space, the output is ["<formatted sender>: <text>"] itself. *)
Theorem plain_text_output message bot userFormatter user sender t :
  from message = Some user ->
  text message = Some t ->
  noCapability message ->
  userFormatter user = Ok sender ->
  describeParts message bot userFormatter
  = Ok ([joinElement sender; js ": "] ++ repeat [] 17 ++ [t])
  /\ tryDescribeMessage message bot userFormatter
     = Ok (trim (joinElement sender ++ js ": " ++ t))
  /\ (trimStart (joinElement sender) = joinElement sender ->
      trimEnd t = t -> t <> [] ->
      tryDescribeMessage message bot userFormatter
      = Ok (joinElement sender ++ js ": " ++ t)).
Proof.
  intros Hfrom Htext Hno Hs.
  assert (Hparts : describeParts message bot userFormatter
                   = Ok ([joinElement sender; js ": "] ++ repeat [] 17 ++ [t])).
  { rewrite (describeParts_noCapability message bot userFormatter sender Hno).
    - unfold body. now rewrite Htext.
    - now rewrite Hfrom. }
  assert (Hout : tryDescribeMessage message bot userFormatter
                 = Ok (trim (joinElement sender ++ js ": " ++ t))).
  { unfold tryDescribeMessage. rewrite Hparts. cbn [bindR].
    now rewrite concat_noCapability. }
  split; [exact Hparts|]. split; [exact Hout|].
  intros Hl Hr Hne. rewrite Hout. f_equal. now apply trim_sender_body.
Qed.

(** C6, as amended.  A message with no optional capability and neither
    [text] nor [caption] is described as the formatted sender without its
    leading white space, followed by [":"]; that is
    ["<formatted sender>:"] when the formatted sender does not start with
    white space. *)
Theorem bare_output message bot userFormatter sender :
  noCapability message ->
  text message = None ->
  caption message = None ->
  userFormatter (default emptyUser (from message)) = Ok sender ->
  tryDescribeMessage message bot userFormatter
  = Ok (trimStart (joinElement sender) ++ js ":")
  /\ (trimStart (joinElement sender) = joinElement sender ->
      tryDescribeMessage message bot userFormatter
      = Ok (joinElement sender ++ js ":")).
Proof.
  intros Hno Htext Hcap Hs.
  assert (Hout : tryDescribeMessage message bot userFormatter
                 = Ok (trimStart (joinElement sender) ++ js ":")).
  { unfold tryDescribeMessage.
    rewrite (describeParts_noCapability message bot userFormatter sender Hno Hs).
    cbn [bindR]. rewrite concat_noCapability.
    unfold body. rewrite Htext, Hcap. rewrite app_nil_r.
    now rewrite trim_colon_space. }
  split; [exact Hout|]. intros Hl. now rewrite Hout, Hl.
Qed.



End WithRuntime.

(** *** The describer on concrete messages *)

#[local] Existing Instance integerRuntime.

Lemma bare_noCapability sender text_ caption_ :
  noCapability (bare sender text_ caption_).
Proof. unfold noCapability; simpl; repeat split. Qed.

(** C1, on the code.  For a document the describer emits
    ["文件：<filename>"] without the brackets and the space: the output
    for [namedDocument] is ["A: 文件：x.pdf"] and does not contain
    ["[文件：x.pdf] "]; for [unnamedDocument] it is ["A: 文件：未知文件"]
    and does not contain ["[文件：未知文件] "]. *)
Theorem document_fragment_lacks_brackets :
  tryDescribeMessage namedDocument theBot defaultFormatter
  = Ok (js "A: 文件：x.pdf")
  /\ includes (js "[文件：x.pdf] ") (js "A: 文件：x.pdf") = false
  /\ tryDescribeMessage unnamedDocument theBot defaultFormatter
     = Ok (js "A: 文件：未知文件")
  /\ includes (js "[文件：未知文件] ") (js "A: 文件：未知文件") = false.
Proof. repeat split; vm_compute; reflexivity. Qed.



(** C3, on the code.  Replying to a photo the bot sent makes the
    describer throw a [TypeError]: the replied-to message is from the bot
    and has no [text], and [text.includes] is called on it. *)
Theorem reply_to_bot_photo_throws :
  isBot theBot tietie
  /\ text botPhoto = None
  /\ tryDescribeMessage (replyTo botPhoto) theBot defaultFormatter
     = Throw TypeError.
Proof.
  split; [|split].
  - exists tietie. split; reflexivity.
  - reflexivity.
  - vm_compute; reflexivity.
Qed.


(** C5, counterexample.  For the text ["hi "] sent by A the output is
    ["A: hi"], not ["A: hi "]: the final space of the text is trimmed. *)
Lemma plain_text_output_is_trimmed :
  from (bare (Some userA) (Some (js "hi ")) None) = Some userA
  /\ text (bare (Some userA) (Some (js "hi ")) None) = Some (js "hi ")
  /\ noCapability (bare (Some userA) (Some (js "hi ")) None)
  /\ defaultFormatter userA = Ok (Some (js "A"))
  /\ tryDescribeMessage (bare (Some userA) (Some (js "hi ")) None) theBot
                        defaultFormatter
     = Ok (js "A: hi")
  /\ js "A: hi" <> js "A" ++ js ": " ++ js "hi ".
Proof.
  repeat split; try (vm_compute; reflexivity).
  vm_compute; discriminate.
Qed.

(** [plain_text_output] at the text ["hi"] sent by A. *)
Lemma plain_text_output_witness :
  tryDescribeMessage (bare (Some userA) (Some (js "hi")) None) theBot
                     defaultFormatter
  = Ok (joinElement (Some (js "A")) ++ js ": " ++ js "hi").
Proof.
  refine (proj2 (proj2 (plain_text_output
                          (bare (Some userA) (Some (js "hi")) None) theBot
                          defaultFormatter userA (Some (js "A")) (js "hi")
                          eq_refl eq_refl (bare_noCapability _ _ _) _))
                _ _ _).
  - vm_compute; reflexivity.
  - vm_compute; reflexivity.
  - vm_compute; reflexivity.
  - vm_compute; discriminate.
Defined.

(** C6, counterexample.  With a formatter that returns [" Bob"] the
    output for a message with no capability, text or caption is ["Bob:"],
    not [" Bob:"]: the leading space is trimmed as well. *)
Lemma bare_output_is_trimmed_at_the_start :
  noCapability (bare (Some userA) None None)
  /\ nicknameFormatter userA = Ok (Some (js " Bob"))
  /\ tryDescribeMessage (bare (Some userA) None None) theBot
                        nicknameFormatter
     = Ok (js "Bob:")
  /\ js "Bob:" <> js " Bob" ++ js ":".
Proof.
  repeat split; try (vm_compute; reflexivity).
  vm_compute; discriminate.
Qed.

(** [bare_output] at an empty message sent by A. *)
Lemma bare_output_witness :
  tryDescribeMessage (bare (Some userA) None None) theBot defaultFormatter
  = Ok (joinElement (Some (js "A")) ++ js ":").
Proof.
  refine (proj2 (bare_output (bare (Some userA) None None) theBot
                             defaultFormatter (Some (js "A"))
                             (bare_noCapability _ _ _) eq_refl eq_refl _)
                _).
  - vm_compute; reflexivity.
  - vm_compute; reflexivity.
Defined.

End DescribeProps.

(** ** The link and nickname store *)

Module StoreProps.
Import Store.

Lemma find_none_filter {A : Type} (p : A -> bool) (l : list A) :
  List.find p l = None -> List.filter p l = [].
Proof.
  induction l as [|a l IH]; simpl; [reflexivity|].
  destruct (p a); [discriminate | exact IH].
Qed.

Lemma find_some_filter {A : Type} (p : A -> bool) (l : list A) (a : A) :
  List.find p l = Some a -> exists rest, List.filter p l = a :: rest.
Proof.
  induction l as [|b l IH]; simpl; [discriminate|].
  destruct (p b).
  - intros [= ->]. now eexists.
  - exact IH.
Qed.

(** An update that keeps the key keeps the selection: the selected rows
    are the old selected rows, updated. *)
Lemma filter_update_same {Row : Type} (p : Row -> bool) (set : Row -> Row)
    (table : list Row) :
  (forall row, p (set row) = p row) ->
  List.filter p (update p set table) = map set (List.filter p table).
Proof.
  intros Hkey. unfold update.
  induction table as [|row table IH]; simpl; [reflexivity|].
  destruct (p row) eqn:E.
  - rewrite Hkey, E. simpl. now rewrite IH.
  - rewrite E. exact IH.
Qed.

(** Rows selected by [q] are not touched by an update of the rows
    selected by [p] when no row is selected by both. *)
Lemma filter_update_other {Row : Type} (p q : Row -> bool)
    (set : Row -> Row) (table : list Row) :
  (forall row, q (set row) = q row) ->
  (forall row, p row = true -> q row = false) ->
  List.filter q (update p set table) = List.filter q table.
Proof.
  intros Hkey Hdisj. unfold update.
  induction table as [|row table IH]; simpl; [reflexivity|].
  destruct (p row) eqn:E.
  - rewrite Hkey, (Hdisj row E). exact IH.
  - destruct (q row); now rewrite IH.
Qed.

Lemma linkMatches_other (chatId k : jsstring) (row : LinkRow) :
  k <> chatId -> linkMatches chatId row = true -> linkMatches k row = false.
Proof.
  unfold linkMatches. intros Hne Hm.
  apply bool_decide_eq_true in Hm. apply bool_decide_eq_false. congruence.
Qed.

(** After [setDiscordLink chatId d] on a table with at most one row for
    [chatId], the rows for [chatId] are exactly the one row
    [(chatId, d)]. *)
Lemma setDiscordLink_rows chatId d db :
  atMostOneRow chatId db ->
  linkRowsOf chatId (setDiscordLink chatId d db)
  = [{| chat_id := chatId; discord_channel_id := d |}].
Proof.
  unfold atMostOneRow, linkRowsOf, setDiscordLink, get. intros Hone.
  destruct (List.find (linkMatches chatId) (discord_link_v2 db))
    as [row|] eqn:Hfind; simpl.
  - rewrite filter_update_same by reflexivity.
    destruct (find_some_filter _ _ _ Hfind) as [rest Hrows].
    rewrite Hrows in Hone |- *. simpl in Hone.
    destruct rest; [|simpl in Hone; lia].
    simpl. apply find_some in Hfind. destruct Hfind as [_ Hm].
    apply bool_decide_eq_true in Hm. now rewrite Hm.
  - unfold insert. rewrite List.filter_app, (find_none_filter _ _ Hfind). simpl.
    unfold linkMatches. simpl. now rewrite bool_decide_eq_true_2.
Qed.

(** The rows of the other chats are the same after [setDiscordLink]. *)
Lemma setDiscordLink_other_rows chatId d k db :
  k <> chatId ->
  linkRowsOf k (setDiscordLink chatId d db) = linkRowsOf k db.
Proof.
  unfold linkRowsOf, setDiscordLink, get. intros Hne.
  destruct (List.find (linkMatches chatId) (discord_link_v2 db)); simpl.
  - apply filter_update_other; [reflexivity|].
    intros row. now apply linkMatches_other.
  - unfold insert. rewrite List.filter_app. simpl.
    unfold linkMatches at 2. simpl.
    rewrite bool_decide_eq_false_2 by congruence. apply app_nil_r.
Qed.

Lemma setDiscordLink_preserves chatId d k db :
  atMostOneRow k db -> atMostOneRow k (setDiscordLink chatId d db).
Proof.
  intros Hone. destruct (decide (k = chatId)) as [->|Hne].
  - unfold atMostOneRow. rewrite setDiscordLink_rows by exact Hone.
    simpl. lia.
  - unfold atMostOneRow. now rewrite setDiscordLink_other_rows.
Qed.

(** C7.  Starting from a table with at most one row for [chatId], two
    calls of [setDiscordLink] for [chatId] with different channel ids
    leave exactly one row for [chatId], holding the second channel id;
    and every call of [setDiscordLink] keeps the number of rows of any
    chat at most one. *)
Theorem setDiscordLink_twice chatId first second db :
  atMostOneRow chatId db ->
  first <> second ->
  linkRowsOf chatId
    (setDiscordLink chatId second (setDiscordLink chatId first db))
  = [{| chat_id := chatId; discord_channel_id := second |}]
  /\ forall c d k db', atMostOneRow k db' ->
                       atMostOneRow k (setDiscordLink c d db').
Proof.
  intros Hone _. split.
  - apply setDiscordLink_rows. now apply setDiscordLink_preserves.
  - intros c d k db'. apply setDiscordLink_preserves.
Qed.

(** [setDiscordLink_twice] on the freshly created tables. *)
Lemma setDiscordLink_twice_witness :
  linkRowsOf (js "c1")
    (setDiscordLink (js "c1") (js "d2")
       (setDiscordLink (js "c1") (js "d1") emptyDatabase))
  = [{| chat_id := js "c1"; discord_channel_id := js "d2" |}].
Proof.
  refine (proj1 (setDiscordLink_twice (js "c1") (js "d1") (js "d2")
                   emptyDatabase _ _)).
  - unfold atMostOneRow. simpl. lia.
  - vm_compute; discriminate.
Defined.

Lemma find_update_none {Row : Type} (p q : Row -> bool) (set : Row -> Row)
    (table : list Row) :
  (forall row, q (set row) = q row) ->
  List.find q table = None -> List.find q (update p set table) = None.
Proof.
  intros Hkey. unfold update.
  induction table as [|row table IH]; simpl; [reflexivity|].
  destruct (q row) eqn:E; [discriminate|]. intros Hn.
  destruct (p row); [rewrite Hkey|]; rewrite E; now apply IH.
Qed.

Lemma find_insert_none {Row : Type} (q : Row -> bool) (row : Row)
    (table : list Row) :
  q row = false ->
  List.find q table = None -> List.find q (insert row table) = None.
Proof.
  intros Hrow. unfold insert.
  induction table as [|r table IH]; simpl; [now rewrite Hrow|].
  destruct (q r); [discriminate | exact IH].
Qed.

Lemma perform_keeps_noNickRow chatId userId call db :
  ~ setsNicknameOf chatId userId call ->
  noNickRow chatId userId db -> noNickRow chatId userId (perform db call).
Proof.
  unfold noNickRow. intros Hcall Hnone.
  destruct call as [c d | c u n]; simpl in *.
  - unfold setDiscordLink.
    destruct (get (linkMatches c) (discord_link_v2 db)); exact Hnone.
  - unfold setDiscordNickname.
    destruct (get (nickMatches c u) (discord_nick db)); simpl.
    + apply find_update_none; [reflexivity | exact Hnone].
    + apply find_insert_none; [|exact Hnone].
      unfold nickMatches. simpl. apply andb_false_iff.
      destruct (decide (c = chatId)) as [->|Hc].
      * right. apply bool_decide_eq_false. intros ->. now apply Hcall.
      * left. now apply bool_decide_eq_false.
Qed.

(** C8.  After any history of calls on the freshly created tables in
    which [setDiscordNickname] was never called for the pair
    [(chatId, userId)], [getDiscordNickname chatId userId] is
    [undefined]; the function is total, it has no throwing path. *)
Theorem getDiscordNickname_absent chatId userId calls :
  Forall (fun call => ~ setsNicknameOf chatId userId call) calls ->
  getDiscordNickname chatId userId (performAll calls emptyDatabase) = None.
Proof.
  intros Hcalls.
  assert (Hinv : noNickRow chatId userId (performAll calls emptyDatabase)).
  { unfold performAll.
    assert (Hstart : noNickRow chatId userId emptyDatabase) by reflexivity.
    revert Hstart. generalize emptyDatabase.
    induction Hcalls as [|call calls Hcall _ IH]; intros db Hdb; simpl.
    - exact Hdb.
    - apply IH. now apply perform_keeps_noNickRow. }
  unfold getDiscordNickname, get. unfold noNickRow in Hinv. now rewrite Hinv.
Qed.

(** [getDiscordNickname_absent] after three calls for other pairs. *)
Lemma getDiscordNickname_absent_witness :
  getDiscordNickname (js "c1") (js "u1")
    (performAll [SetDiscordNickname (js "c1") (js "u2") (js "Bob");
                 SetDiscordLink (js "c1") (js "d1");
                 SetDiscordNickname (js "c2") (js "u1") (js "Eve")]
                emptyDatabase)
  = None.
Proof.
  apply getDiscordNickname_absent.
  constructor; [simpl; intros [_ Hu]; vm_compute in Hu; discriminate|].
  constructor; [simpl; tauto|].
  constructor; [simpl; intros [Hc _]; vm_compute in Hc; discriminate|].
  constructor.
Defined.

End StoreProps.

(** ** The Matrix adapter *)

Module MatrixProps.
Import Base Matrix.

Arguments js : simpl never.

(** Unfolds the operations of the client monad. *)
Ltac run_client :=
  unfold bind, issue, liftR, ret, throw, cacheSet, cacheGet, getBotInfo,
    start;
  simpl.

Section WithRuntime.
Context `{Runtime}.
Variable world : World.

Lemma uploadMediaAsync_miss url c res :
  cachedMedia c !! url = None ->
  doRequest world (js "POST") createPath = Ok res ->
  uploadMediaAsync world url c
  = (Ok (content_uri res),
     {| botInfo := botInfo c; cachedMedia := cachedMedia c;
        issued := issued c ++ [DoRequest (js "POST") createPath None None;
                               Fetch url];
        started := started c
                   ++ [{| task_url := url;
                          task_mxcUri := content_uri res |}] |}).
Proof.
  intros Hmiss Hcreate. unfold uploadMediaAsync, startFetch. run_client.
  rewrite Hmiss. simpl. rewrite Hcreate. simpl.
  now rewrite <- app_assoc.
Qed.

(** A resource whose declared length is zero, [NaN] or above 1 MiB ends
    the task at once. *)
Lemma afterFetch_abandons url mxcUri c resource :
  fetch world url = Ok resource ->
  numFalsy (contentLengthOf resource)
  || numGt (contentLengthOf resource) (1024 * 1024) = true ->
  afterFetch world url mxcUri c = (Ok tt, c).
Proof.
  intros Hfetch Hlen. unfold afterFetch. run_client.
  rewrite Hfetch. simpl. now rewrite Hlen.
Qed.

(** A task that gets through every step sends the body and sets the cache
    entry. *)
Lemma afterFetch_uploads url mxcUri c resource buffer serverName mediaId
    reply http :
  fetch world url = Ok resource ->
  numFalsy (contentLengthOf resource) = false ->
  numGt (contentLengthOf resource) (1024 * 1024) = false ->
  arrayBuffer resource = Ok buffer ->
  mxcParts mxcUri = Some (serverName, mediaId) ->
  doRequest world (js "PUT") (uploadPath serverName mediaId) = Ok reply ->
  mxcToHttp world mxcUri = Ok http ->
  afterFetch world url mxcUri c
  = (Ok tt,
     {| botInfo := botInfo c;
        cachedMedia := <[url := mxcUri]> (cachedMedia c);
        issued := issued c
                  ++ [DoRequest (js "PUT") (uploadPath serverName mediaId)
                                (Some buffer) (contentTypeOf resource)];
        started := started c |}).
Proof.
  intros Hfetch Hzero Hbig Hbuf Hparts Hput Hhttp.
  unfold afterFetch. run_client.
  rewrite Hfetch. simpl. rewrite Hzero, Hbig. simpl.
  rewrite Hbuf. simpl. rewrite Hparts. simpl. rewrite Hput. simpl.
  now rewrite Hhttp.
Qed.

(** A started upload changes the cache only by the one [set] that follows
    a [PUT] request answered without an error. *)
Lemma backgroundUpload_cache url mxcUri c :
  cachedMedia (runTask world {| task_url := url; task_mxcUri := mxcUri |} c)
  = cachedMedia c
  \/ exists path buffer contentType reply http,
       doRequest world (js "PUT") path = Ok reply
       /\ mxcToHttp world mxcUri = Ok http
       /\ issued (runTask world
                    {| task_url := url; task_mxcUri := mxcUri |} c)
          = issued c ++ [DoRequest (js "PUT") path (Some buffer) contentType]
       /\ cachedMedia (runTask world
                         {| task_url := url; task_mxcUri := mxcUri |} c)
          = <[url := mxcUri]> (cachedMedia c).
Proof.
  unfold runTask, afterFetch. run_client.
  destruct (fetch world url) as [resource|e]; simpl; [|now left].
  destruct (numFalsy (contentLengthOf resource)
            || numGt (contentLengthOf resource) (1024 * 1024));
    simpl; [now left|].
  destruct (arrayBuffer resource) as [buffer|e]; simpl; [|now left].
  destruct (mxcParts mxcUri) as [[serverName mediaId]|]; simpl; [|now left].
  destruct (doRequest world (js "PUT") (uploadPath serverName mediaId))
    as [reply|e] eqn:Hput; simpl; [|now left].
  destruct (mxcToHttp world mxcUri) as [http|e] eqn:Hhttp; simpl;
    [|now left].
  right. exists (uploadPath serverName mediaId), buffer,
           (contentTypeOf resource), reply, http.
  repeat split; assumption || reflexivity.
Qed.

Lemma uploadMediaAsync_botInfo url c :
  botInfo (snd (uploadMediaAsync world url c)) = botInfo c.
Proof.
  unfold uploadMediaAsync, startFetch. run_client.
  destruct (cachedMedia c !! url) as [mxcUri|]; simpl.
  - destruct (mxcToHttp world mxcUri); reflexivity.
  - destruct (doRequest world (js "POST") createPath); reflexivity.
Qed.

(** In the cached branch nothing happens to the client; the reference is
    returned unless the conversion for the log line throws. *)
Lemma uploadMediaAsync_cached url mxcUri c :
  cachedMedia c !! url = Some mxcUri ->
  uploadMediaAsync world url c
  = (match mxcToHttp world mxcUri with
     | Ok _ => Ok mxcUri
     | Throw e => Throw e
     end, c).
Proof.
  intros Hhit. unfold uploadMediaAsync. run_client. rewrite Hhit. simpl.
  destruct (mxcToHttp world mxcUri); reflexivity.
Qed.

Lemma uploadMediaAsync_hit url mxcUri c http :
  cachedMedia c !! url = Some mxcUri ->
  mxcToHttp world mxcUri = Ok http ->
  uploadMediaAsync world url c = (Ok mxcUri, c).
Proof.
  intros Hhit Hhttp. rewrite (uploadMediaAsync_cached url mxcUri c Hhit).
  now rewrite Hhttp.
Qed.

Lemma uploadMediaAsync_cache url c :
  cachedMedia (snd (uploadMediaAsync world url c)) = cachedMedia c.
Proof.
  unfold uploadMediaAsync, startFetch. run_client.
  destruct (cachedMedia c !! url) as [mxcUri|]; simpl.
  - destruct (mxcToHttp world mxcUri); reflexivity.
  - destruct (doRequest world (js "POST") createPath); reflexivity.
Qed.

Lemma sendMessage_cache message c :
  cachedMedia (snd (sendMessage world message c)) = cachedMedia c.
Proof.
  unfold sendMessage, bind, issue, liftR, getBotInfo, ret, throw.
  destruct (MessageToSend.mediaType message) as [mediaType_|].
  - pose proof (uploadMediaAsync_cache (MessageToSend.mediaUrl message) c)
      as Hcache.
    destruct (uploadMediaAsync world (MessageToSend.mediaUrl message) c)
      as [[mxcUri|e] c1]; simpl in *; [|assumption].
    destruct (sendEvent world _ _ _) as [messageId_|e]; simpl;
      [|assumption].
    destruct (botInfo c1); simpl; assumption.
  - simpl. destruct (sendEvent world _ _ _) as [messageId_|e]; simpl;
      [|reflexivity].
    destruct (botInfo c); reflexivity.
Qed.

(** The cache of a new client is empty, and neither [sendMessage] nor a
    started task puts a reference into it that [mxcToHttp] does not
    convert: in the cached branch the log line does not throw. *)
Lemma cacheConvertible_empty c :
  cachedMedia c = ∅ -> cacheConvertible world c.
Proof.
  intros Hempty url mxcUri. rewrite Hempty, lookup_empty. discriminate.
Qed.

Lemma runTask_cacheConvertible t c :
  cacheConvertible world c -> cacheConvertible world (runTask world t c).
Proof.
  intros Hc url mxcUri. destruct t as [url' mxcUri'].
  destruct (backgroundUpload_cache url' mxcUri' c)
    as [->|(path & buffer & contentType & reply & http & _ & Hhttp & _
            & ->)].
  - apply Hc.
  - destruct (decide (url' = url)) as [->|Hne].
    + rewrite lookup_insert_eq. intros [= <-]. now exists http.
    + rewrite lookup_insert_ne by exact Hne. apply Hc.
Qed.

Lemma sendMessage_cacheConvertible message c :
  cacheConvertible world c ->
  cacheConvertible world (snd (sendMessage world message c)).
Proof.
  intros Hc url mxcUri. rewrite sendMessage_cache. apply Hc.
Qed.

Lemma isUpload_after_start (l : list Effect) url :
  existsb isUpload
    (l ++ [DoRequest (js "POST") createPath None None; Fetch url])
  = existsb isUpload l.
Proof.
  rewrite existsb_app.
  change (existsb isUpload
            [DoRequest (js "POST") createPath None None; Fetch url])
    with false.
  apply orb_false_r.
Qed.

(** C9, as amended.  When the fetched resource declares a length above
    1 MiB (the number its [Content-Length] header converts to), the
    upload is given up without a trace: [uploadMediaAsync] has returned
    the media reference to its caller, having issued the create request
    and the fetch; the started task then ends without an error, issues
    nothing, no [PUT] in particular, and leaves the cache as it was.  In
    every run of a started task the cache is either unchanged or was set
    after a [PUT] that was answered without an error. *)
Theorem oversized_fetch_is_abandoned url c res resource :
  cachedMedia c !! url = None ->
  doRequest world (js "POST") createPath = Ok res ->
  fetch world url = Ok resource ->
  numGt (contentLengthOf resource) (1024 * 1024) = true ->
  let task := {| task_url := url; task_mxcUri := content_uri res |} in
  let c1 := snd (uploadMediaAsync world url c) in
  fst (uploadMediaAsync world url c) = Ok (content_uri res)
  /\ started c1 = started c ++ [task]
  /\ issued c1
     = issued c ++ [DoRequest (js "POST") createPath None None; Fetch url]
  /\ afterFetch world url (content_uri res) c1 = (Ok tt, c1)
  /\ cachedMedia (runTask world task c1) = cachedMedia c
  /\ issued (runTask world task c1)
     = issued c ++ [DoRequest (js "POST") createPath None None; Fetch url]
  /\ existsb isUpload (issued (runTask world task c1))
     = existsb isUpload (issued c)
  /\ forall url' mxcUri c0,
       cachedMedia (runTask world
                      {| task_url := url'; task_mxcUri := mxcUri |} c0)
       = cachedMedia c0
       \/ exists path buffer contentType reply http,
            doRequest world (js "PUT") path = Ok reply
            /\ mxcToHttp world mxcUri = Ok http
            /\ issued (runTask world
                         {| task_url := url'; task_mxcUri := mxcUri |} c0)
               = issued c0
                 ++ [DoRequest (js "PUT") path (Some buffer) contentType]
            /\ cachedMedia (runTask world
                              {| task_url := url'; task_mxcUri := mxcUri |}
                              c0)
               = <[url' := mxcUri]> (cachedMedia c0).
Proof.
  intros Hmiss Hcreate Hfetch Hbig task c1.
  assert (Hc1 : c1 = {| botInfo := botInfo c; cachedMedia := cachedMedia c;
                        issued := issued c
                                  ++ [DoRequest (js "POST") createPath
                                                None None; Fetch url];
                        started := started c ++ [task] |}).
  { subst c1. now rewrite (uploadMediaAsync_miss url c res Hmiss Hcreate). }
  assert (Hrest : afterFetch world url (content_uri res) c1 = (Ok tt, c1)).
  { apply (afterFetch_abandons url (content_uri res) c1 resource Hfetch).
    rewrite Hbig. apply orb_true_r. }
  unfold runTask. cbn [task_url task_mxcUri task]. rewrite Hrest.
  rewrite (uploadMediaAsync_miss url c res Hmiss Hcreate).
  rewrite Hc1. cbn [fst snd started cachedMedia issued].
  split; [reflexivity|]. split; [reflexivity|]. split; [reflexivity|].
  split; [reflexivity|]. split; [reflexivity|]. split; [reflexivity|].
  split; [apply isUpload_after_start|].
  intros url' mxcUri c0. apply backgroundUpload_cache.
Qed.

(** C10.  A message [sendMessage] returns has the client name ["matrix"]
    and the bot's own user id as both its user id and its user name,
    whatever client name the message to send carried. *)
Theorem sendMessage_identity message c sent :
  fst (sendMessage world message c) = Ok sent ->
  GenericMessage.clientName sent = js "matrix"
  /\ exists me, botInfo c = Some me
                /\ GenericMessage.userId sent = user_id me
                /\ GenericMessage.userName sent = user_id me.
Proof.
  unfold sendMessage, bind, issue, liftR, getBotInfo, ret, throw.
  destruct (MessageToSend.mediaType message) as [mediaType_|] eqn:Hmedia.
  - pose proof (uploadMediaAsync_botInfo (MessageToSend.mediaUrl message) c)
      as Hinfo.
    destruct (uploadMediaAsync world (MessageToSend.mediaUrl message) c)
      as [[mxcUri|e] c1]; simpl in *; [|discriminate].
    destruct (sendEvent world _ _ _) as [messageId_|e]; simpl;
      [|discriminate].
    rewrite Hinfo. destruct (botInfo c) as [me|]; simpl; [|discriminate].
    intros [= <-]. simpl. split; [reflexivity|]. now exists me.
  - simpl.
    destruct (sendEvent world _ _ _) as [messageId_|e]; simpl;
      [|discriminate].
    destruct (botInfo c) as [me|]; simpl; [|discriminate].
    intros [= <-]. simpl. split; [reflexivity|]. now exists me.
Qed.

(** [sendMessage] does return when the home server answers the requests
    and the bot knows who it is. *)
Lemma sendMessage_returns message c me :
  botInfo c = Some me ->
  cacheConvertible world c ->
  (forall method path, exists res, doRequest world method path = Ok res) ->
  (forall room type content,
      exists eventId, sendEvent world room type content = Ok eventId) ->
  exists sent, fst (sendMessage world message c) = Ok sent.
Proof.
  intros Hme Hcache Hreq Hsend.
  unfold sendMessage, bind, issue, liftR, getBotInfo, ret, throw.
  destruct (MessageToSend.mediaType message) as [mediaType_|] eqn:Hmedia.
  - pose proof (uploadMediaAsync_botInfo (MessageToSend.mediaUrl message) c)
      as Hinfo.
    assert (Hok : exists mxcUri,
               fst (uploadMediaAsync world (MessageToSend.mediaUrl message) c)
               = Ok mxcUri).
    { destruct (cachedMedia c !! MessageToSend.mediaUrl message)
        as [mxcUri|] eqn:Hhit.
      - destruct (Hcache _ _ Hhit) as [http Hhttp]. exists mxcUri.
        now rewrite (uploadMediaAsync_hit _ mxcUri c http Hhit Hhttp).
      - destruct (Hreq (js "POST") createPath) as [res Hres].
        exists (content_uri res).
        now rewrite (uploadMediaAsync_miss _ c res Hhit Hres). }
    destruct Hok as [mxcUri Hok].
    destruct (uploadMediaAsync world (MessageToSend.mediaUrl message) c)
      as [r c1]; simpl in *. subst r.
    match goal with
    | |- context [sendEvent world ?a ?b ?k] =>
      destruct (Hsend a b k) as [eventId ->]
    end.
    simpl. rewrite Hinfo, Hme. simpl. now eexists.
  - simpl.
    match goal with
    | |- context [sendEvent world ?a ?b ?k] =>
      destruct (Hsend a b k) as [eventId ->]
    end.
    simpl. rewrite Hme. simpl. now eexists.
Qed.

End WithRuntime.

(** *** The adapter in a concrete world *)

#[local] Existing Instance integerRuntime.

(** C9, counterexample.  [understatedPicture] has a body of more than
    1 MiB and declares a length of 1000: it is not given up.  The started
    task sends the whole body in a [PUT] and sets the cache entry. *)
Lemma understated_resource_is_uploaded :
  arrayBuffer understatedPicture = Ok largeBody
  /\ (1024 * 1024 < Z.of_nat (length largeBody))%Z
  /\ issued
       (runTask understatingWorld
          {| task_url := Some (js "https://example.org/a.jpg");
             task_mxcUri := js "mxc://matrix.org/abc" |}
          (snd (uploadMediaAsync understatingWorld
                  (Some (js "https://example.org/a.jpg")) tietieClient)))
     = [DoRequest (js "POST") createPath None None;
        Fetch (Some (js "https://example.org/a.jpg"));
        DoRequest (js "PUT") (js "/_matrix/media/v3/upload/matrix.org/abc")
                  (Some largeBody) (Some (js "application/octet-stream"))]
  /\ cachedMedia
       (runTask understatingWorld
          {| task_url := Some (js "https://example.org/a.jpg");
             task_mxcUri := js "mxc://matrix.org/abc" |}
          (snd (uploadMediaAsync understatingWorld
                  (Some (js "https://example.org/a.jpg")) tietieClient)))
     = <[Some (js "https://example.org/a.jpg") := js "mxc://matrix.org/abc"]>
         ∅.
Proof.
  split; [reflexivity|]. split.
  { unfold largeBody. rewrite repeat_length. lia. }
  rewrite (uploadMediaAsync_miss understatingWorld
             (Some (js "https://example.org/a.jpg")) tietieClient
             {| content_uri := js "mxc://matrix.org/abc" |}
             eq_refl eq_refl).
  unfold runTask. cbn [snd task_url task_mxcUri content_uri].
  assert (Hzero : numFalsy (contentLengthOf understatedPicture) = false)
    by (lazy; reflexivity).
  assert (Hbig : numGt (contentLengthOf understatedPicture) (1024 * 1024)
                 = false) by (lazy; reflexivity).
  assert (Hparts : mxcParts (js "mxc://matrix.org/abc")
                   = Some (js "matrix.org", js "abc"))
    by (vm_compute; reflexivity).
  assert (Hhttp : mxcToHttp understatingWorld (js "mxc://matrix.org/abc")
                  = Ok (js "https://matrix.org/_matrix/media/v3/download/matrix.org/abc"))
    by (vm_compute; reflexivity).
  rewrite (afterFetch_uploads understatingWorld
             (Some (js "https://example.org/a.jpg"))
             (js "mxc://matrix.org/abc") _ understatedPicture largeBody
             (js "matrix.org") (js "abc")
             {| content_uri := js "mxc://matrix.org/abc" |} _
             eq_refl Hzero Hbig eq_refl Hparts eq_refl Hhttp).
  cbn [issued cachedMedia].
  split; [|reflexivity].
  change (uploadPath (js "matrix.org") (js "abc"))
    with (js "/_matrix/media/v3/upload/matrix.org/abc").
  change (contentTypeOf understatedPicture)
    with (Some (js "application/octet-stream")).
  reflexivity.
Qed.

(** [oversized_fetch_is_abandoned] at [bigPicture]. *)
Lemma oversized_fetch_is_abandoned_witness :
  fst (uploadMediaAsync busyWorld (Some (js "https://example.org/a.jpg"))
                        tietieClient)
  = Ok (js "mxc://matrix.org/abc")
  /\ cachedMedia
       (runTask busyWorld
          {| task_url := Some (js "https://example.org/a.jpg");
             task_mxcUri := js "mxc://matrix.org/abc" |}
          (snd (uploadMediaAsync busyWorld
                  (Some (js "https://example.org/a.jpg")) tietieClient)))
     = ∅.
Proof.
  pose proof (oversized_fetch_is_abandoned busyWorld
                (Some (js "https://example.org/a.jpg")) tietieClient
                {| content_uri := js "mxc://matrix.org/abc" |} bigPicture
                eq_refl eq_refl eq_refl) as Hw.
  destruct Hw as (Hret & _ & _ & _ & Hcache & _).
  - vm_compute; reflexivity.
  - split; [exact Hret | exact Hcache].
Defined.

(** [sendMessage_identity] at [relayedPhoto], which carries the client
    name ["telegram"]. *)
Lemma sendMessage_identity_witness :
  fst (sendMessage busyWorld relayedPhoto tietieClient) = Ok sentPhoto
  /\ GenericMessage.clientName sentPhoto = js "matrix"
  /\ exists me, botInfo tietieClient = Some me
                /\ GenericMessage.userId sentPhoto = user_id me
                /\ GenericMessage.userName sentPhoto = user_id me.
Proof.
  assert (Hsent : fst (sendMessage busyWorld relayedPhoto tietieClient)
                  = Ok sentPhoto) by (vm_compute; reflexivity).
  split; [exact Hsent|].
  exact (sendMessage_identity busyWorld relayedPhoto tietieClient sentPhoto
                              Hsent).
Defined.

End MatrixProps.

(** ** More on the link and nickname store *)

Module StoreMore.
Import Store StoreViews StoreProps.

Lemma find_update_same {Row : Type} (p : Row -> bool) (set : Row -> Row)
    (table : list Row) (row : Row) :
  (forall r, p (set r) = p r) ->
  List.find p table = Some row ->
  List.find p (update p set table) = Some (set row).
Proof.
  intros Hkey. unfold update.
  induction table as [|r table IH]; simpl; [discriminate|].
  destruct (p r) eqn:E.
  - intros [= ->]. now rewrite Hkey, E.
  - rewrite E. exact IH.
Qed.

Lemma find_update_other {Row : Type} (p q : Row -> bool) (set : Row -> Row)
    (table : list Row) :
  (forall r, p r = true -> q r = false) ->
  (forall r, q (set r) = q r) ->
  List.find q (update p set table) = List.find q table.
Proof.
  intros Hdisj Hkey. unfold update.
  induction table as [|r table IH]; simpl; [reflexivity|].
  destruct (p r) eqn:E.
  - now rewrite Hkey, (Hdisj r E).
  - destruct (q r); [reflexivity | exact IH].
Qed.

Lemma find_insert {Row : Type} (q : Row -> bool) (row : Row)
    (table : list Row) :
  List.find q (insert row table)
  = match List.find q table with
    | Some r => Some r
    | None => if q row then Some row else None
    end.
Proof.
  unfold insert. induction table as [|r table IH]; simpl; [reflexivity|].
  destruct (q r); [reflexivity | exact IH].
Qed.

Lemma nickMatches_refl chatId userId n :
  nickMatches chatId userId
    {| nick_chat_id := chatId; user_id := userId; nickname := n |} = true.
Proof.
  unfold nickMatches. simpl. now rewrite !bool_decide_eq_true_2.
Qed.

Lemma nickMatches_other chatId userId c u (row : NickRow) :
  (c, u) <> (chatId, userId) ->
  nickMatches c u row = true -> nickMatches chatId userId row = false.
Proof.
  unfold nickMatches. intros Hne Hm.
  apply andb_true_iff in Hm. destruct Hm as [Hc Hu].
  apply bool_decide_eq_true in Hc. apply bool_decide_eq_true in Hu.
  apply andb_false_iff.
  destruct (decide (nick_chat_id row = chatId)) as [Hc'|Hc'].
  - right. apply bool_decide_eq_false. intros Hu'. apply Hne. congruence.
  - left. now apply bool_decide_eq_false.
Qed.

(** X1.  [getDiscordNickname] right after [setDiscordNickname] for the
    same chat and user returns the nickname just set, whatever the table
    held before. *)
Theorem getDiscordNickname_after_set chatId userId n db :
  getDiscordNickname chatId userId (setDiscordNickname chatId userId n db)
  = Some n.
Proof.
  unfold getDiscordNickname, setDiscordNickname, get.
  destruct (List.find (nickMatches chatId userId) (discord_nick db))
    as [row|] eqn:Hfind; simpl.
  - now rewrite (find_update_same _ _ _ row) by (reflexivity || exact Hfind).
  - now rewrite find_insert, Hfind, nickMatches_refl.
Qed.

(** X2.  [setDiscordNickname] for one chat and user does not change what
    [getDiscordNickname] returns for any other pair. *)
Theorem getDiscordNickname_other_set chatId userId c u n db :
  (c, u) <> (chatId, userId) ->
  getDiscordNickname chatId userId (setDiscordNickname c u n db)
  = getDiscordNickname chatId userId db.
Proof.
  intros Hne. unfold getDiscordNickname, setDiscordNickname, get.
  destruct (List.find (nickMatches c u) (discord_nick db)); simpl.
  - rewrite find_update_other; [reflexivity | | reflexivity].
    intros r. now apply nickMatches_other.
  - rewrite find_insert.
    destruct (List.find (nickMatches chatId userId) (discord_nick db));
      [reflexivity|].
    rewrite (nickMatches_other chatId userId c u); [reflexivity|exact Hne|].
    apply nickMatches_refl.
Qed.

(** [getDiscordNickname_other_set] for two users of one chat. *)
Lemma getDiscordNickname_other_set_witness :
  getDiscordNickname (js "c1") (js "u1")
    (setDiscordNickname (js "c1") (js "u2") (js "Eve")
       (setDiscordNickname (js "c1") (js "u1") (js "Bob") emptyDatabase))
  = getDiscordNickname (js "c1") (js "u1")
      (setDiscordNickname (js "c1") (js "u1") (js "Bob") emptyDatabase).
Proof.
  apply getDiscordNickname_other_set.
  intros Heq. vm_compute in Heq. discriminate.
Defined.

Lemma update_none {Row : Type} (p : Row -> bool) (set : Row -> Row)
    (table : list Row) :
  List.find p table = None -> update p set table = table.
Proof.
  unfold update. induction table as [|r table IH]; simpl; [reflexivity|].
  destruct (p r); [discriminate|]. intros Hn. now rewrite IH.
Qed.

Lemma update_update {Row : Type} (p : Row -> bool) (set : Row -> Row)
    (table : list Row) :
  (forall r, p (set r) = p r) ->
  (forall r, set (set r) = set r) ->
  update p set (update p set table) = update p set table.
Proof.
  intros Hkey Hset. unfold update.
  induction table as [|r table IH]; simpl; [reflexivity|].
  destruct (p r) eqn:E.
  - now rewrite Hkey, E, Hset, IH.
  - now rewrite E, IH.
Qed.

Lemma linkMatches_refl chatId d :
  linkMatches chatId {| chat_id := chatId; discord_channel_id := d |} = true.
Proof. unfold linkMatches. simpl. now rewrite bool_decide_eq_true_2. Qed.

(** X3.  [setDiscordLink] is idempotent: a second call with the same chat
    and channel changes nothing. *)
Theorem setDiscordLink_idempotent chatId d db :
  setDiscordLink chatId d (setDiscordLink chatId d db)
  = setDiscordLink chatId d db.
Proof.
  destruct (List.find (linkMatches chatId) (discord_link_v2 db))
    as [row|] eqn:Hfind.
  - assert (Hfirst : setDiscordLink chatId d db
              = {| discord_link_v2 :=
                     update (linkMatches chatId)
                       (fun row => {| chat_id := chat_id row;
                                      discord_channel_id := d |})
                       (discord_link_v2 db);
                   discord_nick := discord_nick db |}).
    { unfold setDiscordLink, get. now rewrite Hfind. }
    rewrite Hfirst. unfold setDiscordLink, get. simpl.
    rewrite (find_update_same _ _ _ row) by (reflexivity || exact Hfind).
    f_equal. now apply update_update.
  - assert (Hfirst : setDiscordLink chatId d db
              = {| discord_link_v2 :=
                     insert {| chat_id := chatId; discord_channel_id := d |}
                            (discord_link_v2 db);
                   discord_nick := discord_nick db |}).
    { unfold setDiscordLink, get. now rewrite Hfind. }
    rewrite Hfirst. unfold setDiscordLink, get. simpl.
    rewrite find_insert, Hfind, linkMatches_refl. f_equal.
    unfold insert, update. rewrite map_app. simpl.
    rewrite linkMatches_refl. f_equal.
    now apply (update_none (linkMatches chatId)).
Qed.

Lemma linksOf_rows chatId db :
  linksOf chatId db
  = map (fun row => {| chatId := chat_id row;
                       discordChannelId := discord_channel_id row |})
        (linkRowsOf chatId db).
Proof.
  unfold linksOf, linkRowsOf, getDiscordLinks.
  induction (discord_link_v2 db) as [|row rows IH]; simpl; [reflexivity|].
  unfold linkMatches at 1. destruct (bool_decide (chat_id row = chatId));
    simpl; now rewrite IH.
Qed.

Lemma relink_rows chatId d (rows : list LinkRow) :
  (forall r, In r rows -> chat_id r = chatId) ->
  map (fun row => {| chat_id := chat_id row; discord_channel_id := d |}) rows
  = repeat {| chat_id := chatId; discord_channel_id := d |} (length rows).
Proof.
  induction rows as [|r rs IH]; intros Hall; simpl; [reflexivity|].
  rewrite (Hall r) by now left. f_equal. apply IH.
  intros r' Hr'. apply Hall. now right.
Qed.

(** After [setDiscordLink chatId d] the rows of [chatId] are the old
    ones, each with the channel [d], or the one new row. *)
Lemma setDiscordLink_rows_any chatId d db :
  linkRowsOf chatId (setDiscordLink chatId d db)
  = repeat {| chat_id := chatId; discord_channel_id := d |}
           (Nat.max 1 (length (linkRowsOf chatId db))).
Proof.
  unfold linkRowsOf, setDiscordLink, get.
  destruct (List.find (linkMatches chatId) (discord_link_v2 db))
    as [row|] eqn:Hfind; simpl.
  - rewrite filter_update_same by reflexivity.
    destruct (find_some_filter _ _ _ Hfind) as [rest Hrows].
    rewrite (relink_rows chatId).
    + f_equal. rewrite Hrows. simpl. lia.
    + intros r Hr. apply filter_In in Hr. destruct Hr as [_ Hm].
      now apply bool_decide_eq_true in Hm.
  - unfold insert. rewrite List.filter_app, (find_none_filter _ _ Hfind).
    simpl. now rewrite linkMatches_refl.
Qed.

(** X4.  After [setDiscordLink chatId d], [getDiscordLinks] holds at
    least one link for [chatId] and every link it holds for [chatId] has
    the channel [d]: as many as before, one when there was none. *)
Theorem getDiscordLinks_after_set chatId d db :
  linksOf chatId (setDiscordLink chatId d db)
  = repeat {| chatId := chatId; discordChannelId := d |}
           (Nat.max 1 (length (linksOf chatId db))).
Proof.
  rewrite !linksOf_rows, setDiscordLink_rows_any, length_map.
  induction (Nat.max 1 (length (linkRowsOf chatId db))) as [|k IH]; simpl;
    [reflexivity | now rewrite IH].
Qed.

(** X5.  [setDiscordLink] for one chat leaves the links of every other
    chat as they were. *)
Theorem getDiscordLinks_other_chat chatId d k db :
  k <> chatId ->
  linksOf k (setDiscordLink chatId d db) = linksOf k db.
Proof.
  intros Hne. now rewrite !linksOf_rows, setDiscordLink_other_rows.
Qed.

(** [getDiscordLinks_other_chat] for two chats. *)
Lemma getDiscordLinks_other_chat_witness :
  linksOf (js "c2")
    (setDiscordLink (js "c1") (js "d9")
       (setDiscordLink (js "c2") (js "d2") emptyDatabase))
  = linksOf (js "c2") (setDiscordLink (js "c2") (js "d2") emptyDatabase).
Proof.
  apply getDiscordLinks_other_chat.
  intros Heq. vm_compute in Heq. discriminate.
Defined.

Lemma setDiscordNickname_links chatId userId n db :
  discord_link_v2 (setDiscordNickname chatId userId n db)
  = discord_link_v2 db.
Proof.
  unfold setDiscordNickname.
  destruct (get (nickMatches chatId userId) (discord_nick db)); reflexivity.
Qed.

Lemma setDiscordLink_nicks chatId d db :
  discord_nick (setDiscordLink chatId d db) = discord_nick db.
Proof.
  unfold setDiscordLink.
  destruct (get (linkMatches chatId) (discord_link_v2 db)); reflexivity.
Qed.

Lemma setDiscordNickname_preserves chatId userId n c u db :
  (length (nickRowsOf c u db) <= 1)%nat ->
  (length (nickRowsOf c u (setDiscordNickname chatId userId n db)) <= 1)%nat.
Proof.
  unfold nickRowsOf, setDiscordNickname, get. intros Hone.
  destruct (List.find (nickMatches chatId userId) (discord_nick db))
    as [row|] eqn:Hfind; simpl.
  - destruct (decide ((chatId, userId) = (c, u))) as [[= -> ->]|Hne].
    + rewrite filter_update_same by reflexivity. now rewrite length_map.
    + rewrite filter_update_other; [exact Hone | reflexivity |].
      intros r. now apply nickMatches_other.
  - unfold insert. rewrite List.filter_app, length_app. simpl.
    destruct (decide ((chatId, userId) = (c, u))) as [[= -> ->]|Hne].
    + rewrite (find_none_filter _ _ Hfind), nickMatches_refl. simpl. lia.
    + rewrite (nickMatches_other c u chatId userId); [simpl; lia|exact Hne|].
      apply nickMatches_refl.
Qed.

Lemma perform_keysUnique db call :
  keysUnique db -> keysUnique (perform db call).
Proof.
  intros [Hlinks Hnicks]. destruct call as [c d | c u n]; simpl; split.
  - intros k. apply setDiscordLink_preserves, Hlinks.
  - intros k v. unfold nickRowsOf. rewrite setDiscordLink_nicks. apply Hnicks.
  - intros k. unfold linkRowsOf. rewrite setDiscordNickname_links.
    apply Hlinks.
  - intros k v. apply setDiscordNickname_preserves, Hnicks.
Qed.

(** X6.  Whatever calls of [setDiscordLink] and [setDiscordNickname] were
    made on the freshly created tables, no chat has two link rows and no
    user of a chat has two nickname rows: the upserts keep the keys
    unique although the tables declare none. *)
Theorem store_keys_stay_unique calls :
  keysUnique (performAll calls emptyDatabase).
Proof.
  unfold performAll.
  assert (Hstart : keysUnique emptyDatabase).
  { split; intros; simpl; lia. }
  revert Hstart. generalize emptyDatabase.
  induction calls as [|call calls IH]; intros db Hdb; simpl; [exact Hdb|].
  apply IH. now apply perform_keysUnique.
Qed.

End StoreMore.

(** ** More on strings *)

Module JSMore.
Import JSFacts.

Lemma trimStart_fixed (s : jsstring) :
  trimStart s = s <->
  s = [] \/ exists c t, s = c :: t /\ isWhiteSpace c = false.
Proof.
  split.
  - destruct s as [|c t]; [now left|]. intros Heq. right. exists c, t.
    split; [reflexivity|]. simpl in Heq.
    destruct (isWhiteSpace c) eqn:E; [|reflexivity]. exfalso.
    assert (Hlen : (length (trimStart t) <= length t)%nat).
    { clear. induction t as [|b t IH]; simpl; [lia|].
      destruct (isWhiteSpace b); simpl; lia. }
    rewrite Heq in Hlen. simpl in Hlen. lia.
  - intros [->|(c & t & -> & Hc)]; [reflexivity|]. simpl. now rewrite Hc.
Qed.

Lemma trimStart_suffix (s : jsstring) : exists w, s = w ++ trimStart s.
Proof.
  induction s as [|c s [w IH]]; [now exists []|]. simpl.
  destruct (isWhiteSpace c).
  - exists (c :: w). simpl. now rewrite <- IH.
  - now exists [].
Qed.

Lemma trimEnd_prefix (s : jsstring) : exists w, s = trimEnd s ++ w.
Proof.
  unfold trimEnd. destruct (trimStart_suffix (rev s)) as [w Hw].
  exists (rev w). rewrite <- rev_app_distr, <- Hw. now rewrite rev_involutive.
Qed.

Lemma trimEnd_idem (s : jsstring) : trimEnd (trimEnd s) = trimEnd s.
Proof.
  unfold trimEnd. now rewrite rev_involutive, trimStart_idem.
Qed.

Lemma trimStart_trimEnd (s : jsstring) :
  trimStart s = s -> trimStart (trimEnd s) = trimEnd s.
Proof.
  intros Hs. destruct (trimEnd_prefix s) as [w Hw].
  destruct (trimEnd s) as [|c t] eqn:E; [reflexivity|].
  apply trimStart_fixed. right. exists c, t. split; [reflexivity|].
  apply trimStart_fixed in Hs. destruct Hs as [Hs|(c' & t' & Hs & Hc)].
  - rewrite Hs in Hw. discriminate.
  - rewrite Hs in Hw. simpl in Hw. now injection Hw as <- _.
Qed.

(** A trimmed string has no white space at either end. *)
Lemma trim_ends (s : jsstring) :
  trimStart (trim s) = trim s /\ trimEnd (trim s) = trim s.
Proof.
  unfold trim. split.
  - apply trimStart_trimEnd, trimStart_idem.
  - apply trimEnd_idem.
Qed.

Lemma trim_idem (s : jsstring) : trim (trim s) = trim s.
Proof.
  destruct (trim_ends s) as [Hl Hr]. unfold trim at 1. now rewrite Hl, Hr.
Qed.

Lemma splitHead_prefix (sep s : jsstring) :
  exists rest, s = splitHead sep s ++ rest.
Proof.
  induction s as [|c s [rest IH]]; simpl.
  - destruct (startsWith sep []); now exists [].
  - destruct (startsWith sep (c :: s)).
    + now exists (c :: s).
    + exists rest. simpl. now rewrite <- IH.
Qed.

(** The part before the first separator holds no separator. *)
Lemma splitHead_lacks_separator (sep s : jsstring) :
  sep <> [] -> includes sep (splitHead sep s) = false.
Proof.
  intros Hsep. induction s as [|c s IH].
  - simpl. destruct (startsWith sep []) eqn:E; simpl; rewrite orb_false_r.
    + destruct sep; [congruence | discriminate].
    + exact E.
  - simpl. destruct (startsWith sep (c :: s)) eqn:E.
    + simpl. rewrite orb_false_r. destruct sep; [congruence | reflexivity].
    + change (includes sep (c :: splitHead sep s))
        with (startsWith sep (c :: splitHead sep s)
              || includes sep (splitHead sep s)).
      rewrite IH, orb_false_r.
      destruct (startsWith sep (c :: splitHead sep s)) eqn:E'; [|reflexivity].
      apply startsWith_spec in E'. destruct E' as [r Hr].
      destruct (splitHead_prefix sep s) as [rest Hrest].
      assert (Hs : startsWith sep (c :: s) = true).
      { apply startsWith_spec. exists (r ++ rest).
        rewrite app_assoc, <- Hr. simpl. now rewrite <- Hrest. }
      congruence.
Qed.

End JSMore.

(** ** More on the message describer *)

Module DescribeMore.
Import Describe DescribeViews JSFacts JSMore DescribeProps.

Lemma formatUser_profileName user :
  formatUser user = orElse (Some (profileName user)) (username user).
Proof.
  unfold formatUser, profileName.
  destruct (first_name user) as [[|a fn]|], (last_name user) as [[|b ln]|];
    reflexivity.
Qed.

(** X7.  [formatUser] returns the first and the last name joined by a
    space and trimmed when that is not empty, and the result has then no
    white space at either end; otherwise it returns the username as it
    is, [undefined] when there is none. *)
Theorem formatUser_result user :
  (profileName user <> [] ->
   formatUser user = Some (profileName user)
   /\ trimStart (profileName user) = profileName user
   /\ trimEnd (profileName user) = profileName user)
  /\ (profileName user = [] -> formatUser user = username user).
Proof.
  rewrite formatUser_profileName. split.
  - intros Hne. split.
    + destruct (profileName user); [congruence | reflexivity].
    + apply trim_ends.
  - intros ->. reflexivity.
Qed.

Section WithRuntime.
Context `{Runtime}.

(** X8.  Whatever the describer returns has no white space at either
    end. *)
Theorem describer_output_is_trimmed message bot userFormatter s :
  tryDescribeMessage message bot userFormatter = Ok s ->
  trimStart s = s /\ trimEnd s = s.
Proof.
  unfold tryDescribeMessage.
  destruct (describeParts message bot userFormatter) as [parts|];
    [|discriminate].
  cbn [bindR]. intros [= <-]. apply trim_ends.
Qed.

(** X9.  The describer never reads who a message was forwarded from: two
    messages that differ only in the [forward_from] user are described
    alike, the forward fragment names the sender of the message
    itself. *)
Theorem forward_from_is_not_read message bot userFormatter user1 user2 :
  tryDescribeMessage (withForward user1 message) bot userFormatter
  = tryDescribeMessage (withForward user2 message) bot userFormatter
  /\ await (tryDescribe (forward_from (withForward user1 message))
                        (forwardDescriptor bot (withForward user1 message)))
     = (let* speaker := tryExtractUserFromMessage bot message in
        Ok (bracket (js "转发自：" ++ interpolate speaker))).
Proof.
  split.
  - reflexivity.
  - cbn [withForward forward_from tryDescribe forwardDescriptor await].
    unfold tryExtractUserFromMessage. cbn [from text withForward].
    destruct (from message) as [sender|]; [|reflexivity].
    cbn [bindR]. destruct (botInfo bot) as [info|]; [|reflexivity].
    cbn [bindR].
    destruct (strictEq (username sender) (username info)); [|reflexivity].
    destruct (text message) as [t|]; [|reflexivity].
    destruct (includes (js ": ") t); reflexivity.
Qed.

Lemma tryExtractUserFromMessage_returns bot message :
  (exists speaker, tryExtractUserFromMessage bot message = Ok speaker)
  <-> speakerReadable bot message = true.
Proof.
  unfold tryExtractUserFromMessage, speakerReadable.
  destruct (from message) as [sender|]; [|split; eauto].
  destruct (botInfo bot) as [info|]; cbn [bindR];
    [|split; [intros [? ?]; discriminate | discriminate]].
  destruct (strictEq (username sender) (username info)); cbn [negb orb];
    [|split; eauto].
  destruct (text message) as [t|].
  - split; [intros _; now apply bool_decide_eq_true_2|intros _].
    destruct (includes (js ": ") t); eauto.
  - split; [intros [? ?]; discriminate|].
    intros Hd. apply bool_decide_eq_true in Hd. destruct Hd as [? ?].
    discriminate.
Qed.

Lemma bindR_returns {A B} (r : Result A) (k : A -> Result B) :
  (exists b, bindR r k = Ok b) <-> exists a, r = Ok a /\ exists b, k a = Ok b.
Proof.
  destruct r as [a|e]; simpl.
  - split; [intros Hb; now exists a | now intros (a' & [= <-] & Hb)].
  - split; [intros [? ?]; discriminate | intros (? & ? & _); discriminate].
Qed.

Lemma extract_cases bot message :
  (exists speaker, tryExtractUserFromMessage bot message = Ok speaker
                   /\ speakerReadable bot message = true)
  \/ (exists e, tryExtractUserFromMessage bot message = Throw e
                /\ speakerReadable bot message = false).
Proof.
  destruct (tryExtractUserFromMessage bot message) as [speaker|e] eqn:E.
  - left. exists speaker. split; [reflexivity|].
    apply (proj1 (tryExtractUserFromMessage_returns bot message)). eauto.
  - right. exists e. split; [reflexivity|].
    destruct (speakerReadable bot message) eqn:Hr; [|reflexivity].
    apply (proj2 (tryExtractUserFromMessage_returns bot message)) in Hr.
    destruct Hr as [? Hr]. congruence.
Qed.

Lemma await_forward_returns bot message :
  (exists s, await (tryDescribe (forward_from message)
                                (forwardDescriptor bot message)) = Ok s)
  <-> (is_Some (forward_from message) -> speakerReadable bot message = true).
Proof.
  destruct (forward_from message) as [forwarder|];
    cbn [tryDescribe forwardDescriptor await].
  - destruct (extract_cases bot message)
      as [(speaker & -> & ->)|(e & -> & ->)]; cbn [bindR].
    + split; eauto.
    + split; [intros [? ?]; discriminate|].
      intros Hr. assert (Hsome : is_Some (Some forwarder)) by eauto.
      apply Hr in Hsome. discriminate.
  - split; [intros _ [? ?]; discriminate | eauto].
Qed.

Lemma await_reply_returns bot message :
  (exists s, await (tryDescribe (reply_to_message message)
                                (replyDescriptor bot)) = Ok s)
  <-> (forall replied, reply_to_message message = Some replied ->
                       speakerReadable bot replied = true).
Proof.
  destruct (reply_to_message message) as [replied|];
    cbn [tryDescribe replyDescriptor await].
  - destruct (extract_cases bot replied)
      as [(speaker & -> & Hr)|(e & -> & Hr)]; cbn [bindR].
    + split; [now intros _ r [= <-] | eauto].
    + split; [intros [? ?]; discriminate|].
      intros Hall. specialize (Hall replied eq_refl). congruence.
  - split; [intros _ r; discriminate | eauto].
Qed.

Lemma await_via_returns message :
  exists s, await (tryDescribe (via_bot message) viaBotDescriptor) = Ok s.
Proof. destruct (via_bot message); cbn; eauto. Qed.

(** X10.  The describer returns exactly when the user formatter returns
    and the speaker can be read off every message it looks at for
    context: the message itself when it is forwarded, and the message it
    replies to.  It throws in every other case. *)
Theorem describer_returns_iff message bot userFormatter :
  (exists s, tryDescribeMessage message bot userFormatter = Ok s)
  <-> (exists sender,
         userFormatter (default emptyUser (from message)) = Ok sender)
      /\ (is_Some (forward_from message) ->
          speakerReadable bot message = true)
      /\ (forall replied, reply_to_message message = Some replied ->
                          speakerReadable bot replied = true).
Proof.
  rewrite <- await_forward_returns, <- await_reply_returns.
  unfold tryDescribeMessage, describeParts.
  rewrite bindR_returns. split.
  - intros (parts & Hp & _). revert Hp.
    destruct (userFormatter _) as [sender|]; [|discriminate]. cbn [bindR].
    destruct (await (tryDescribe (forward_from message) _)) as [f|];
      [|discriminate]. cbn [bindR].
    destruct (await (tryDescribe (reply_to_message message) _)) as [r|];
      [|discriminate].
    intros _. repeat split; eauto.
  - intros ((sender & ->) & (f & ->) & (r & ->)). cbn [bindR].
    destruct (await_via_returns message) as [v ->]. cbn [bindR]. eauto.
Qed.

(** X11.  A reply to a message of the bot whose text holds [": "] is
    labelled with the part of that text before the first [": "]: the
    label holds no [": "] itself and the text is the label, [": "] and a
    rest. *)
Theorem reply_to_bot_label message replied sender bot t :
  reply_to_message message = Some replied ->
  from replied = Some sender ->
  isBot bot sender ->
  text replied = Some t ->
  includes (js ": ") t = true ->
  exists label rest,
    t = label ++ js ": " ++ rest
    /\ includes (js ": ") label = false
    /\ await (tryDescribe (reply_to_message message) (replyDescriptor bot))
       = Ok (bracket (js "回复给：" ++ label)).
Proof.
  intros Hrep Hfrom [info [Hinfo Hname]] Htext Hinc.
  destruct (splitHead_spec (js ": ") t Hinc) as [rest Hrest].
  exists (splitHead (js ": ") t), rest.
  split; [exact Hrest|]. split.
  - apply splitHead_lacks_separator. discriminate.
  - rewrite Hrep. unfold replyDescriptor, tryDescribe, await.
    unfold tryExtractUserFromMessage. rewrite Hfrom, Hinfo. cbn [bindR].
    rewrite Hname.
    assert (Heq : strictEq (username info) (username info) = true).
    { unfold strictEq. destruct (username info); [|reflexivity].
      now apply bool_decide_eq_true. }
    rewrite Heq, Htext, Hinc. reflexivity.
Qed.

End WithRuntime.

#[local] Existing Instance integerRuntime.

(** [describer_output_is_trimmed] at a text with spaces at its end. *)
Lemma describer_output_is_trimmed_witness :
  trimStart (js "A: hi") = js "A: hi" /\ trimEnd (js "A: hi") = js "A: hi".
Proof.
  apply (describer_output_is_trimmed
           (bare (Some userA) (Some (js "hi  ")) None) theBot
           defaultFormatter (js "A: hi")).
  vm_compute; reflexivity.
Defined.

(** [reply_to_bot_label] at a reply to the bot's message
    ["Bob: see: this"]. *)
Lemma reply_to_bot_label_witness :
  exists label rest,
    js "Bob: see: this" = label ++ js ": " ++ rest
    /\ includes (js ": ") label = false
    /\ await (tryDescribe
                (reply_to_message
                   (replyTo (bare (Some tietie) (Some (js "Bob: see: this"))
                                  None)))
                (replyDescriptor theBot))
       = Ok (bracket (js "回复给：" ++ label)).
Proof.
  refine (reply_to_bot_label
            (replyTo (bare (Some tietie) (Some (js "Bob: see: this")) None))
            (bare (Some tietie) (Some (js "Bob: see: this")) None)
            tietie theBot (js "Bob: see: this") eq_refl eq_refl _ eq_refl _).
  - exists tietie. split; reflexivity.
  - vm_compute; reflexivity.
Defined.

End DescribeMore.

(** ** More on the Matrix adapter *)

Module MatrixMore.
Import Base Matrix MatrixViews JSFacts JSMore MatrixProps.

Arguments js : simpl never.

Section WithRuntime.
Context `{Runtime}.
Variable world : World.

(** X12.  For a URL that is in the cache [uploadMediaAsync] issues no
    request, starts no upload and leaves the client as it was.  It
    returns the cached media reference once [mxcToHttp] has converted it
    for the log line, and throws what [mxcToHttp] throws otherwise; in a
    cache all of whose references [mxcToHttp] converts it returns the
    cached reference. *)
Theorem uploadMediaAsync_cache_hit url mxcUri c :
  cachedMedia c !! url = Some mxcUri ->
  uploadMediaAsync world url c
  = (match mxcToHttp world mxcUri with
     | Ok _ => Ok mxcUri
     | Throw e => Throw e
     end, c)
  /\ issued (snd (uploadMediaAsync world url c)) = issued c
  /\ started (snd (uploadMediaAsync world url c)) = started c
  /\ (cacheConvertible world c ->
      uploadMediaAsync world url c = (Ok mxcUri, c)).
Proof.
  intros Hhit. rewrite (uploadMediaAsync_cached world url mxcUri c Hhit).
  repeat split. intros Hc. destruct (Hc url mxcUri Hhit) as [http ->].
  reflexivity.
Qed.

(** X13.  An upload that goes through fills the cache: when the resource
    is fetched, declares a length that is not zero and not above 1 MiB,
    the media reference has the form [mxc://server/id], the [PUT] is
    answered and [mxcToHttp] converts the reference for the log line,
    the started task issues the [PUT] to
    [/_matrix/media/v3/upload/server/id] after the create request and
    the fetch of the call, and the next [uploadMediaAsync] for the URL
    returns the same reference without a request. *)
Theorem upload_then_cache_hit url c res resource buffer serverName mediaId
    reply http :
  cachedMedia c !! url = None ->
  doRequest world (js "POST") createPath = Ok res ->
  fetch world url = Ok resource ->
  numFalsy (contentLengthOf resource) = false ->
  numGt (contentLengthOf resource) (1024 * 1024) = false ->
  arrayBuffer resource = Ok buffer ->
  mxcParts (content_uri res) = Some (serverName, mediaId) ->
  doRequest world (js "PUT") (uploadPath serverName mediaId) = Ok reply ->
  mxcToHttp world (content_uri res) = Ok http ->
  let task := {| task_url := url; task_mxcUri := content_uri res |} in
  let c2 := runTask world task (snd (uploadMediaAsync world url c)) in
  issued c2
  = issued c ++ [DoRequest (js "POST") createPath None None;
                 Fetch url;
                 DoRequest (js "PUT") (uploadPath serverName mediaId)
                           (Some buffer) (contentTypeOf resource)]
  /\ cachedMedia c2 = <[url := content_uri res]> (cachedMedia c)
  /\ uploadMediaAsync world url c2 = (Ok (content_uri res), c2).
Proof.
  intros Hmiss Hcreate Hfetch Hzero Hbig Hbuf Hparts Hput Hhttp task c2.
  assert (Hc2 : c2 = {| botInfo := botInfo c;
                        cachedMedia := <[url := content_uri res]>
                                         (cachedMedia c);
                        issued := issued c
                          ++ [DoRequest (js "POST") createPath None None;
                              Fetch url;
                              DoRequest (js "PUT")
                                        (uploadPath serverName mediaId)
                                        (Some buffer)
                                        (contentTypeOf resource)];
                        started := started c ++ [task] |}).
  { subst c2. rewrite (uploadMediaAsync_miss world url c res Hmiss Hcreate).
    unfold runTask. cbn [snd task task_url task_mxcUri].
    rewrite (afterFetch_uploads world url (content_uri res) _ resource
               buffer serverName mediaId reply http
               Hfetch Hzero Hbig Hbuf Hparts Hput Hhttp).
    cbn [snd botInfo cachedMedia issued started].
    now rewrite <- app_assoc. }
  rewrite Hc2. cbn [issued cachedMedia].
  split; [reflexivity|]. split; [reflexivity|].
  apply (uploadMediaAsync_hit world url (content_uri res) _ http);
    [|exact Hhttp].
  cbn [cachedMedia]. apply lookup_insert_eq.
Qed.


(** X15.  A resource whose declared length converts to zero or to [NaN]
    (as when the resource comes without the header) is given up like an
    oversized one: the started task issues the fetch only, ends without
    an error and leaves the cache as it was. *)
Theorem unsized_fetch_is_abandoned url mxcUri c resource :
  fetch world url = Ok resource ->
  numFalsy (contentLengthOf resource) = true ->
  backgroundUpload world url mxcUri c
  = (Ok tt, {| botInfo := botInfo c; cachedMedia := cachedMedia c;
               issued := issued c ++ [Fetch url];
               started := started c |}).
Proof.
  intros Hfetch Hzero. unfold backgroundUpload, startFetch, afterFetch.
  run_client. rewrite Hfetch. simpl. now rewrite Hzero.
Qed.

(** X16.  When the media reference the server gave is not of the form
    [mxc://server/id], the started task fails with a [TypeError] after
    the fetch: no [PUT] is issued and the cache is left as it was, so
    the reference [uploadMediaAsync] returned never gets its content. *)
Theorem malformed_reference_is_not_uploaded url mxcUri c resource buffer :
  fetch world url = Ok resource ->
  numFalsy (contentLengthOf resource) = false ->
  numGt (contentLengthOf resource) (1024 * 1024) = false ->
  arrayBuffer resource = Ok buffer ->
  mxcParts mxcUri = None ->
  backgroundUpload world url mxcUri c
  = (Throw TypeError,
     {| botInfo := botInfo c; cachedMedia := cachedMedia c;
        issued := issued c ++ [Fetch url]; started := started c |}).
Proof.
  intros Hfetch Hzero Hbig Hbuf Hparts.
  unfold backgroundUpload, startFetch, afterFetch. run_client.
  rewrite Hfetch. simpl. rewrite Hzero, Hbig. simpl. rewrite Hbuf. simpl.
  now rewrite Hparts.
Qed.

Lemma uploadMediaAsync_state url c :
  cachedMedia (snd (uploadMediaAsync world url c)) = cachedMedia c
  /\ exists new, started (snd (uploadMediaAsync world url c))
                 = started c ++ new
                 /\ (length new <= 1)%nat.
Proof.
  unfold uploadMediaAsync, startFetch. run_client.
  destruct (cachedMedia c !! url) as [mxcUri|]; simpl.
  - destruct (mxcToHttp world mxcUri); simpl;
      (split; [reflexivity|]); exists [];
      (split; [now rewrite app_nil_r|]); simpl; lia.
  - destruct (doRequest world (js "POST") createPath); simpl.
    + split; [reflexivity|]. eexists. split; [reflexivity|]. simpl. lia.
    + split; [reflexivity|]. exists []. split; [now rewrite app_nil_r|].
      simpl. lia.
Qed.

(** X17.  [sendMessage] itself never writes the cache and never changes
    what the client knows about itself; it starts at most one upload,
    and none for a message without a media type. *)
Theorem sendMessage_keeps_cache message c :
  cachedMedia (snd (sendMessage world message c)) = cachedMedia c
  /\ botInfo (snd (sendMessage world message c)) = botInfo c
  /\ exists new, started (snd (sendMessage world message c))
                 = started c ++ new
                 /\ (length new <= 1)%nat
                 /\ (MessageToSend.mediaType message = None -> new = []).
Proof.
  unfold sendMessage, bind, issue, liftR, getBotInfo, ret, throw.
  destruct (MessageToSend.mediaType message) as [mediaType_|].
  - pose proof (uploadMediaAsync_botInfo world
                  (MessageToSend.mediaUrl message) c) as Hinfo.
    destruct (uploadMediaAsync_state (MessageToSend.mediaUrl message) c)
      as (Hcache & new & Hnew & Hlen).
    destruct (uploadMediaAsync world (MessageToSend.mediaUrl message) c)
      as [[mxcUri|e] c1]; simpl in *.
    + destruct (sendEvent world _ _ _) as [messageId_|e]; simpl.
      * destruct (botInfo c1); simpl; repeat split; try assumption;
          exists new; repeat split; try assumption; discriminate.
      * repeat split; try assumption.
        exists new; repeat split; try assumption; discriminate.
    + repeat split; try assumption.
      exists new; repeat split; try assumption; discriminate.
  - simpl. destruct (sendEvent world _ _ _) as [messageId_|e]; simpl.
    + destruct (botInfo c); simpl; repeat split;
        exists []; repeat split; try (now rewrite app_nil_r); simpl; lia.
    + repeat split.
      exists []; repeat split; try (now rewrite app_nil_r); simpl; lia.
Qed.

(** X18.  While the client does not know yet who it is, [sendMessage]
    never returns a message; for a message without media it has by then
    sent the event to the room, and fails with a [TypeError] only
    afterwards. *)
Theorem sendMessage_before_whoami message c :
  botInfo c = None ->
  (forall sent, fst (sendMessage world message c) <> Ok sent)
  /\ (MessageToSend.mediaType message = None ->
      forall eventId content,
        content = {| body := MessageToSend.text message;
                     url := None;
                     info := {| h := 160; w := 160;
                                mimetype :=
                                  MessageToSend.mediaMimeType message;
                                size := MessageToSend.mediaSize message |};
                     msgtype := js "m.text";
                     relates_to :=
                       if truthy (MessageToSend.messageIdReplied message)
                       then MessageToSend.messageIdReplied message
                       else None |} ->
        sendEvent world (MessageToSend.chatId message) (js "m.room.message")
                  content = Ok eventId ->
        sendMessage world message c
        = (Throw TypeError,
           {| botInfo := None; cachedMedia := cachedMedia c;
              issued := issued c
                        ++ [SendEvent (MessageToSend.chatId message)
                                      (js "m.room.message") content];
              started := started c |})).
Proof.
  intros Hnone. split.
  - intros sent.
    unfold sendMessage, bind, issue, liftR, getBotInfo, ret, throw.
    destruct (MessageToSend.mediaType message) as [mediaType_|].
    + pose proof (uploadMediaAsync_botInfo world
                    (MessageToSend.mediaUrl message) c) as Hinfo.
      destruct (uploadMediaAsync world (MessageToSend.mediaUrl message) c)
        as [[mxcUri|e] c1]; simpl in *; [|discriminate].
      destruct (sendEvent world _ _ _) as [messageId_|e]; simpl;
        [|discriminate].
      rewrite Hinfo, Hnone. simpl. discriminate.
    + simpl. destruct (sendEvent world _ _ _) as [messageId_|e]; simpl;
        [|discriminate].
      rewrite Hnone. simpl. discriminate.
  - intros Hmedia eventId content -> Hsend.
    unfold sendMessage, bind, issue, liftR, getBotInfo, ret, throw.
    rewrite Hmedia. simpl.
    change (109 :: 46 :: js "text") with (js "m.text"). rewrite Hsend. simpl.
    now rewrite Hnone.
Qed.

(** X19.  The event of a message [sendMessage] returns for is the last
    request issued; it goes to the chat of the message and carries its
    text.  A sticker is sent as an [m.sticker] event only when it is a
    JPEG; any other sticker goes out as an [m.room.message] of type
    [m.video], and a message without media as one of type [m.text] and
    without a URL. *)
Theorem sendMessage_event message c sent :
  fst (sendMessage world message c) = Ok sent ->
  exists before content,
    issued (snd (sendMessage world message c))
    = before ++ [SendEvent (MessageToSend.chatId message)
                           (eventTypeOf message) content]
    /\ body content = MessageToSend.text message
    /\ msgtype content = msgtypeOf message
    /\ (url content = None <-> MessageToSend.mediaType message = None)
    /\ sendEvent world (MessageToSend.chatId message) (eventTypeOf message)
                 content = Ok (GenericMessage.messageId sent).
Proof.
  unfold sendMessage, bind, issue, liftR, getBotInfo, ret, throw,
    eventTypeOf, msgtypeOf.
  destruct (MessageToSend.mediaType message) as [mediaType_|] eqn:Hm.
  - destruct (uploadMediaAsync world (MessageToSend.mediaUrl message) c)
      as [[mxcUri|e] c1]; simpl; [|discriminate].
    destruct mediaType_; simpl;
      try destruct (bool_decide (MessageToSend.mediaMimeType message
                                 = Some (js "image/jpeg"))); simpl;
      (destruct (sendEvent world _ _ _) as [messageId_|e] eqn:Hsend; simpl;
       [|discriminate]);
      (destruct (botInfo c1) as [me|]; simpl; [|discriminate]);
      intros [= <-]; eexists _, _;
      (split; [reflexivity|]); simpl;
      (split; [reflexivity|]); (split; [reflexivity|]);
      (split; [split; discriminate | exact Hsend]).
  - simpl.
    destruct (sendEvent world _ _ _) as [messageId_|e] eqn:Hsend; simpl;
      [|discriminate].
    destruct (botInfo c) as [me|]; simpl; [|discriminate].
    intros [= <-]. eexists _, _.
    split; [reflexivity|]. simpl.
    split; [reflexivity|]. split; [reflexivity|].
    split; [split; reflexivity | exact Hsend].
Qed.

End WithRuntime.

Lemma splitHead_stop (sep s : jsstring) :
  exists r, s = splitHead sep s ++ r /\ (r = [] \/ startsWith sep r = true).
Proof.
  induction s as [|c s (r & Hr & Hstop)]; simpl.
  - destruct (startsWith sep []) eqn:E.
    + exists []. split; [reflexivity | now left].
    + exists []. split; [reflexivity | now left].
  - destruct (startsWith sep (c :: s)) eqn:E.
    + exists (c :: s). split; [reflexivity | now right].
    + exists r. split; [simpl; now rewrite <- Hr | exact Hstop].
Qed.

Lemma splitHead_before_char (c : N) (s t : jsstring) :
  includes [c] s = false -> splitHead [c] (s ++ c :: t) = s.
Proof.
  induction s as [|a s IH]; simpl.
  - intros _. now rewrite N.eqb_refl.
  - rewrite andb_true_r. destruct (c =? a); simpl; [discriminate|].
    intros Hs. now rewrite IH.
Qed.

(** X20.  The server name and the media id are taken from a media
    reference exactly when it is [mxc://], a server name without a
    slash, a slash and a non-empty media id, on one line; the reference
    is then these parts put together again. *)
Theorem mxcParts_spec uri serverName mediaId :
  mxcParts uri = Some (serverName, mediaId)
  <-> uri = js "mxc://" ++ serverName ++ js "/" ++ mediaId
      /\ includes (js "/") serverName = false
      /\ mediaId <> []
      /\ oneLine serverName = true
      /\ oneLine mediaId = true.
Proof.
  unfold mxcParts, oneLine. split.
  - destruct (startsWith (js "mxc://") uri) eqn:Hp; [|discriminate].
    apply startsWith_spec in Hp. destruct Hp as [rest ->].
    change (drop 6 (js "mxc://" ++ rest)) with rest.
    destruct (existsb isLineTerminator rest) eqn:Hline; [discriminate|].
    destruct (splitHead_stop (js "/") rest) as (r & Hr & Hstop).
    rewrite Hr at 2. rewrite drop_app_length.
    destruct r as [|x [|y m]]; try discriminate.
    intros [= <- <-].
    destruct Hstop as [|Hstop]; [discriminate|].
    change (js "/") with [47] in *.
    change (startsWith [47] (x :: y :: m)) with ((47 =? x) && true)
      in Hstop.
    rewrite andb_true_r in Hstop. apply N.eqb_eq in Hstop. subst x.
    rewrite Hr in Hline. rewrite existsb_app in Hline.
    apply orb_false_iff in Hline. destruct Hline as [Hl1 Hl2].
    simpl in Hl2.
    split; [f_equal; exact Hr|]. split.
    + apply splitHead_lacks_separator. discriminate.
    + split; [discriminate|]. split; [now rewrite Hl1|].
      simpl. now rewrite Hl2.
  - intros (-> & Hslash & Hne & Hl1 & Hl2).
    rewrite startsWith_app.
    change (drop 6 (js "mxc://" ++ serverName ++ js "/" ++ mediaId))
      with (serverName ++ js "/" ++ mediaId).
    change (js "/") with [47] in *.
    rewrite existsb_app. simpl.
    apply negb_true_iff in Hl1. apply negb_true_iff in Hl2.
    rewrite Hl1, Hl2. simpl.
    rewrite splitHead_before_char by exact Hslash.
    rewrite drop_app_length.
    destruct mediaId; [congruence | reflexivity].
Qed.

#[local] Existing Instance integerRuntime.

(** [uploadMediaAsync_cache_hit] at [warmClient]. *)
Lemma uploadMediaAsync_cache_hit_witness :
  uploadMediaAsync busyWorld pictureUrl warmClient
  = (Ok (js "mxc://matrix.org/abc"), warmClient).
Proof.
  refine (proj2 (proj2 (proj2
            (uploadMediaAsync_cache_hit busyWorld pictureUrl
               (js "mxc://matrix.org/abc") warmClient _))) _).
  - vm_compute; reflexivity.
  - intros url mxcUri _. eexists. reflexivity.
Defined.

(** [upload_then_cache_hit] at [smallPicture]. *)
Lemma upload_then_cache_hit_witness :
  cachedMedia
    (runTask (worldServing smallPicture (js "mxc://matrix.org/abc"))
       {| task_url := pictureUrl; task_mxcUri := js "mxc://matrix.org/abc" |}
       (snd (uploadMediaAsync
               (worldServing smallPicture (js "mxc://matrix.org/abc"))
               pictureUrl tietieClient)))
  = <[pictureUrl := js "mxc://matrix.org/abc"]> ∅.
Proof.
  refine (proj1 (proj2
    (upload_then_cache_hit
       (worldServing smallPicture (js "mxc://matrix.org/abc"))
       pictureUrl tietieClient
       {| content_uri := js "mxc://matrix.org/abc" |} smallPicture
       [1; 2; 3] (js "matrix.org") (js "abc")
       {| content_uri := js "mxc://matrix.org/abc" |}
       (js "https://matrix.org/_matrix/media/v3/download/matrix.org/abc")
       eq_refl eq_refl eq_refl _ _ eq_refl _ eq_refl _)));
    vm_compute; reflexivity.
Defined.


(** [unsized_fetch_is_abandoned] at a resource without headers. *)
Lemma unsized_fetch_is_abandoned_witness :
  backgroundUpload (worldServing bareResource (js "mxc://matrix.org/abc"))
                   pictureUrl (js "mxc://matrix.org/abc") tietieClient
  = (Ok tt, {| botInfo := botInfo tietieClient; cachedMedia := ∅;
               issued := [] ++ [Fetch pictureUrl]; started := [] |}).
Proof.
  apply (unsized_fetch_is_abandoned
           (worldServing bareResource (js "mxc://matrix.org/abc"))
           pictureUrl (js "mxc://matrix.org/abc") tietieClient bareResource).
  - reflexivity.
  - vm_compute; reflexivity.
Defined.

(** [malformed_reference_is_not_uploaded] at a reference without a media
    id. *)
Lemma malformed_reference_is_not_uploaded_witness :
  backgroundUpload (worldServing smallPicture (js "mxc://matrix.org/"))
                   pictureUrl (js "mxc://matrix.org/") tietieClient
  = (Throw TypeError,
     {| botInfo := botInfo tietieClient; cachedMedia := ∅;
        issued := [] ++ [Fetch pictureUrl]; started := [] |}).
Proof.
  apply (malformed_reference_is_not_uploaded
           (worldServing smallPicture (js "mxc://matrix.org/"))
           pictureUrl (js "mxc://matrix.org/") tietieClient smallPicture
           [1; 2; 3]).
  - reflexivity.
  - vm_compute; reflexivity.
  - vm_compute; reflexivity.
  - reflexivity.
  - vm_compute; reflexivity.
Defined.

(** [sendMessage_before_whoami] at [namelessClient]. *)
Lemma sendMessage_before_whoami_witness :
  sendMessage busyWorld relayedText namelessClient
  = (Throw TypeError,
     {| botInfo := None; cachedMedia := ∅;
        issued := [] ++ [SendEvent (js "!room:matrix.org")
                                   (js "m.room.message")
                                   {| body := js "A: hi";
                                      url := None;
                                      info := {| h := 160; w := 160;
                                                 mimetype := None;
                                                 size := None |};
                                      msgtype := js "m.text";
                                      relates_to := None |}];
        started := [] |}).
Proof.
  exact (proj2 (sendMessage_before_whoami busyWorld relayedText
                  namelessClient eq_refl)
               eq_refl (js "$event1") _ eq_refl eq_refl).
Defined.

(** [sendMessage_event] at a sticker that is not a JPEG. *)
Lemma sendMessage_event_witness :
  exists before content,
    issued (snd (sendMessage busyWorld relayedSticker tietieClient))
    = before ++ [SendEvent (js "!room:matrix.org") (js "m.room.message")
                           content]
    /\ msgtype content = js "m.video".
Proof.
  destruct (sendMessage_event busyWorld relayedSticker tietieClient
              {| GenericMessage.clientName := js "matrix";
                 GenericMessage.text := js "A: [贴纸]";
                 GenericMessage.userId := js "@tietie:matrix.org";
                 GenericMessage.userName := js "@tietie:matrix.org";
                 GenericMessage.chatId := js "!room:matrix.org";
                 GenericMessage.messageId := js "$event1";
                 GenericMessage.unixDate := Fin (inject_Z 1700000000);
                 GenericMessage.isServiceMessage := None;
                 GenericMessage.mediaType := Some sticker;
                 GenericMessage.mediaUrl := pictureUrl;
                 GenericMessage.mediaMimeType := Some (js "image/webp");
                 GenericMessage.mediaSize := None;
                 GenericMessage.messageIdReplied := None;
                 GenericMessage.rawMessage :=
                   {| id := js "$event1"; content := js "A: [贴纸]" |};
                 GenericMessage.rawUser := botInfo tietieClient;
                 GenericMessage.rawMessageReplied := None;
                 GenericMessage.rawMessageExtra := None |})
    as (before & content & Hissued & _ & Htype & _).
  - vm_compute; reflexivity.
  - exists before, content. split; [exact Hissued | exact Htype].
Defined.

End MatrixMore.

(** ** The Matrix adapter: incoming events and edits *)

Module MatrixEventsProps.
Import Base Matrix MatrixEvents JSFacts.

Arguments js : simpl never.

Lemma transformMessage_fields hs message roomId t :
  transformMessage hs message roomId = Ok t ->
  Incoming.userId t = RoomEvent.sender message
  /\ Incoming.chatId t = roomId
  /\ Incoming.clientName t = js "matrix"
  /\ Incoming.mediaType t
     = (if truthy (attachmentTypeOf message)
        then Some (lookupMediaType (default [] (attachmentTypeOf message)))
        else None)
  /\ (Incoming.mediaUrl t = None <-> truthy (attachmentTypeOf message) = false)
  /\ Incoming.messageIdReplied t
     = match inReplyTo message with
       | Some target => ReplyTarget.event_id target
       | None => None
       end
  /\ Incoming.text t
     = match Content.new_content (RoomEvent.content message) with
       | Some edited => NewContent.body edited
       | None => Content.body (RoomEvent.content message)
       end.
Proof.
  unfold transformMessage.
  destruct (getUserProfile hs _) as [profile|]; [|discriminate].
  cbn [bindR].
  destruct (match Content.new_content (RoomEvent.content message) with
            | Some _ => _ | None => _ end) as [messageId_|]; [|discriminate].
  cbn [bindR].
  destruct (truthy (attachmentTypeOf message)) eqn:Ht.
  - destruct (mxcToHttp hs _) as [http|]; [|discriminate]. cbn [bindR].
    intros [= <-]. cbn. repeat split; try reflexivity; discriminate.
  - cbn [bindR]. intros [= <-]. cbn. repeat split; reflexivity.
Qed.

(** X21.  Once [transformMessage] has returned, what the handler of
    [room.message] does is settled: it drops the event, emitting nothing,
    when the client knows who it is and the event was sent by itself;
    every other event it emits once with the transformed message, as
    [edit-message] when the content has an ['m.new_content'] and as
    [message] otherwise.  A client that does not know yet who it is
    emits its own events too. *)
Theorem onRoomMessage_emits hs botInfo_ roomId message t :
  transformMessage hs message roomId = Ok t ->
  (isOwnEvent botInfo_ message ->
   onRoomMessage hs botInfo_ roomId message = Ok None)
  /\ (~ isOwnEvent botInfo_ message ->
      onRoomMessage hs botInfo_ roomId message
      = Ok (Some match Content.new_content (RoomEvent.content message) with
                 | Some _ => EmitEditMessage t
                 | None => EmitMessage t
                 end))
  /\ (botInfo_ = None -> ~ isOwnEvent botInfo_ message).
Proof.
  intros Ht. pose proof (transformMessage_fields _ _ _ _ Ht) as [Hid _].
  unfold onRoomMessage, isOwnEvent. rewrite Ht. cbn [bindR]. rewrite Hid.
  split; [|split].
  - intros (me & -> & Hs). rewrite bool_decide_eq_true_2; [reflexivity|].
    simpl. now rewrite Hs.
  - intros Hother. rewrite bool_decide_eq_false_2.
    + destruct (Content.new_content _); reflexivity.
    + intros Heq. apply Hother.
      destruct botInfo_ as [me|]; [|discriminate].
      exists me. split; [reflexivity|]. simpl in Heq. congruence.
  - intros -> (me & Hme & _). discriminate.
Qed.

Lemma not_inherited (key : jsstring) :
  bool_decide (key ∈ objectPrototypeKeys) = false ->
  key ∉ objectPrototypeKeys.
Proof. intros Hd. now apply (proj1 (bool_decide_eq_false _)). Qed.

(** X22.  A message [transformMessage] returns has a media type exactly
    when it has a media URL; its media type is never [sticker], and it
    is a media type at all unless the first part of the MIME type is the
    name of a member of [Object.prototype], such as [constructor]. *)
Theorem transformMessage_media hs message roomId t :
  transformMessage hs message roomId = Ok t ->
  (Incoming.mediaType t = None <-> Incoming.mediaUrl t = None)
  /\ Incoming.mediaType t <> Some (Media sticker)
  /\ (forall key, Incoming.mediaType t = Some (Inherited key) ->
                  key ∈ objectPrototypeKeys
                  /\ attachmentTypeOf message = Some key)
  /\ (forall key, attachmentTypeOf message = Some key ->
                  key ∈ objectPrototypeKeys ->
                  Incoming.mediaType t = Some (Inherited key)).
Proof.
  intros Ht.
  destruct (transformMessage_fields _ _ _ _ Ht)
    as (_ & _ & _ & Hmedia & Hurl & _).
  rewrite Hmedia, Hurl. clear Hmedia Hurl Ht.
  destruct (attachmentTypeOf message) as [[|a key]|];
    cbn [truthy default from_option Datatypes.id].
  - split; [now split|]. split; [discriminate|]. split; [discriminate|].
    intros k [= <-] Hin. exfalso. revert Hin. now apply not_inherited.
  - unfold lookupMediaType. split; [split; discriminate|].
    case_bool_decide as E1.
    { split; [discriminate|]. split; [discriminate|].
      intros k [= <-] Hin. rewrite E1 in Hin.
      exfalso. revert Hin. now apply not_inherited. }
    case_bool_decide as E2.
    { split; [discriminate|]. split; [discriminate|].
      intros k [= <-] Hin. rewrite E2 in Hin.
      exfalso. revert Hin. now apply not_inherited. }
    case_bool_decide as E3.
    + split; [discriminate|]. split.
      * now intros k [= <-].
      * now intros k [= <-] _.
    + split; [discriminate|]. split; [discriminate|].
      intros k [= <-] Hin. contradiction.
  - split; [now split|]. split; [discriminate|]. split; discriminate.
Qed.

(** X23.  An edit made by [editMessage] comes back to [transformMessage]
    as the edited message: the text is the new text without the ["* "]
    mark, the message id is the id of the message that was edited, there
    is no media; and the handler of another client emits it as
    [edit-message]. *)
Theorem edit_round_trip hs edit sender_ eventId timestamp roomId profile :
  getUserProfile hs sender_ = Ok profile ->
  exists t,
    transformMessage hs
      (delivered (editContent edit) sender_ eventId timestamp) roomId
    = Ok t
    /\ Incoming.text t
       = Some (MessageToSend.text (MessageToEdit.base edit))
    /\ Incoming.messageId t = Some (MessageToEdit.messageId edit)
    /\ Incoming.mediaType t = None
    /\ Incoming.mediaUrl t = None
    /\ forall botInfo_,
         option_map user_id botInfo_ <> Some sender_ ->
         onRoomMessage hs botInfo_ roomId
           (delivered (editContent edit) sender_ eventId timestamp)
         = Ok (Some (EmitEditMessage t)).
Proof.
  intros Hprofile. eexists. split; [|split; [|split; [|split; [|split]]]].
  - unfold transformMessage. cbn. rewrite Hprofile. cbn. reflexivity.
  - reflexivity.
  - reflexivity.
  - reflexivity.
  - reflexivity.
  - intros botInfo_ Hother. unfold onRoomMessage, transformMessage. cbn.
    rewrite Hprofile. cbn.
    rewrite bool_decide_eq_false_2 by congruence. reflexivity.
Qed.

(** X24.  A reply sent by [sendMessage] does not come back as a reply:
    [sendMessage] puts the id of the replied-to message under
    ['m.reply_to'], [transformMessage] looks for it under
    ['m.in_reply_to'], so the received message has the text and the id
    of the event but no [messageIdReplied]. *)
Theorem sent_reply_is_not_received_as_reply hs content_ sender_ eventId
    timestamp roomId t :
  transformMessage hs
    (delivered (wireContent content_) sender_ eventId timestamp) roomId
  = Ok t ->
  Incoming.text t = Some (body content_)
  /\ Incoming.messageId t = Some eventId
  /\ Incoming.messageIdReplied t = None
  /\ Incoming.rawMessageReplied t = None.
Proof.
  unfold transformMessage. cbn.
  destruct (getUserProfile hs sender_) as [profile|]; [|discriminate]. cbn.
  destruct (truthy _); cbn.
  - destruct (mxcToHttp hs _) as [http|]; [|discriminate]. cbn.
    intros [= <-]. cbn. unfold inReplyTo. cbn.
    destruct (relates_to content_); repeat split; reflexivity.
  - intros [= <-]. cbn. unfold inReplyTo. cbn.
    destruct (relates_to content_); repeat split; reflexivity.
Qed.

(** X25.  [fetchBotInfo] tries again after every failure, however many
    there are: once [getWhoAmI] answers, after [n] failures, the client
    knows who it is from that answer and [n + 1] attempts were made; the
    rest of the client is untouched. *)
Theorem fetchBotInfo_retries failures me later c :
  Forall isFailure failures ->
  fetchBotInfo (failures ++ Ok me :: later) c
  = ({| botInfo := Some me; cachedMedia := cachedMedia c;
        issued := issued c; started := started c |},
     S (length failures)).
Proof.
  induction 1 as [|failure failures Hf _ IH]; simpl; [reflexivity|].
  destruct failure as [?|e]; [contradiction|]. now rewrite IH.
Qed.

(** [onRoomMessage_emits] at an edit sent by Alice, received by a client
    that knows who it is. *)
Lemma onRoomMessage_emits_witness :
  exists t,
    transformMessage friendlyServer
      (delivered (editContent sampleEdit) (js "@alice:matrix.org")
                 (js "$event2") (Fin (inject_Z 1700000000000)))
      (js "!room:matrix.org")
    = Ok t
    /\ onRoomMessage friendlyServer (botInfo tietieClient)
         (js "!room:matrix.org")
         (delivered (editContent sampleEdit) (js "@alice:matrix.org")
                    (js "$event2") (Fin (inject_Z 1700000000000)))
       = Ok (Some (EmitEditMessage t)).
Proof.
  destruct (transformMessage friendlyServer
              (delivered (editContent sampleEdit) (js "@alice:matrix.org")
                         (js "$event2") (Fin (inject_Z 1700000000000)))
              (js "!room:matrix.org"))
    as [t|] eqn:Ht; [|vm_compute in Ht; discriminate].
  exists t. split; [reflexivity|].
  apply (proj1 (proj2 (onRoomMessage_emits friendlyServer
                         (botInfo tietieClient) (js "!room:matrix.org") _
                         t Ht))).
  intros (me & Hme & Hsender). injection Hme as <-.
  vm_compute in Hsender. discriminate.
Defined.

(** [transformMessage_media] at an event with the MIME type
    [constructor/x]. *)
Lemma transformMessage_media_witness :
  exists t,
    transformMessage friendlyServer oddEvent (js "!room:matrix.org") = Ok t
    /\ Incoming.mediaType t = Some (Inherited (js "constructor")).
Proof.
  destruct (transformMessage friendlyServer oddEvent (js "!room:matrix.org"))
    as [t|] eqn:Ht; [|vm_compute in Ht; discriminate].
  exists t. split; [reflexivity|].
  apply (proj2 (proj2 (proj2 (transformMessage_media _ _ _ t Ht)))).
  - reflexivity.
  - vm_compute. apply list_elem_of_here.
Defined.

(** [edit_round_trip] at [sampleEdit]. *)
Lemma edit_round_trip_witness :
  exists t,
    transformMessage friendlyServer
      (delivered (editContent sampleEdit) (js "@alice:matrix.org")
                 (js "$event2") (Fin (inject_Z 1700000000000)))
      (js "!room:matrix.org")
    = Ok t
    /\ Incoming.text t = Some (js "A: hi")
    /\ Incoming.messageId t = Some (js "$event1").
Proof.
  destruct (edit_round_trip friendlyServer sampleEdit
              (js "@alice:matrix.org") (js "$event2")
              (Fin (inject_Z 1700000000000)) (js "!room:matrix.org")
              {| displayname := Some (js "Alice") |} eq_refl)
    as (t & Ht & Htext & Hid & _).
  exists t. repeat split; assumption.
Defined.

(** [sent_reply_is_not_received_as_reply] at [sampleReply], which
    answers the event [$event0]. *)
Lemma sent_reply_is_not_received_as_reply_witness :
  relates_to sampleReply = Some (js "$event0")
  /\ exists t,
       transformMessage friendlyServer
         (delivered (wireContent sampleReply) (js "@tietie:matrix.org")
                    (js "$event3") (Fin (inject_Z 1700000000000)))
         (js "!room:matrix.org")
       = Ok t
       /\ Incoming.messageIdReplied t = None.
Proof.
  split; [reflexivity|].
  destruct (transformMessage friendlyServer
              (delivered (wireContent sampleReply) (js "@tietie:matrix.org")
                         (js "$event3") (Fin (inject_Z 1700000000000)))
              (js "!room:matrix.org"))
    as [t|] eqn:Ht; [|vm_compute in Ht; discriminate].
  exists t. split; [reflexivity|].
  exact (proj1 (proj2 (proj2
           (sent_reply_is_not_received_as_reply _ _ _ _ _ _ t Ht)))).
Defined.

(** [fetchBotInfo_retries] after two failures. *)
Lemma fetchBotInfo_retries_witness :
  fetchBotInfo ([Throw RequestError; Throw RequestError]
                ++ Ok {| user_id := js "@tietie:matrix.org";
                         device_id := None |} :: [])
               MatrixViews.namelessClient
  = ({| botInfo := Some {| user_id := js "@tietie:matrix.org";
                           device_id := None |};
        cachedMedia := ∅; issued := []; started := [] |}, 3%nat).
Proof.
  apply fetchBotInfo_retries. repeat constructor.
Defined.

End MatrixEventsProps.

(** ** The default command *)

Module DefaultCommandProps.
Import DefaultCommand JSFacts.

Arguments js : simpl never.

Lemma skipCommandChars_spec (s : jsstring) :
  exists w, s = w ++ skipCommandChars s /\ forallb isCommandChar w = true.
Proof.
  induction s as [|c s (w & Hw & Hall)]; simpl.
  - now exists [].
  - destruct (isCommandChar c) eqn:E.
    + exists (c :: w). simpl. rewrite E, Hall. split; [now rewrite <- Hw|].
      reflexivity.
    + now exists [].
Qed.

Lemma skipCommandChars_app (w rest : jsstring) (x : N) :
  forallb isCommandChar w = true -> isCommandChar x = false ->
  skipCommandChars (w ++ x :: rest) = x :: rest.
Proof.
  intros Hall Hx. induction w as [|c w IH]; simpl.
  - now rewrite Hx.
  - simpl in Hall. apply andb_true_iff in Hall. destruct Hall as [Hc Hall].
    rewrite Hc. now apply IH.
Qed.

(** The texts the regular expression matches. *)
Lemma hasArguments_spec (t : jsstring) :
  hasArguments t = true
  <-> exists w rest, t = js "/" ++ w ++ js " " ++ rest
                     /\ w <> [] /\ forallb isCommandChar w = true.
Proof.
  change (js "/") with [47]. change (js " ") with [32]. split.
  - destruct t as [|slash [|c t]]; try discriminate.
    unfold hasArguments. intros Hm.
    apply andb_true_iff in Hm. destruct Hm as [Hm Hx].
    apply andb_true_iff in Hm. destruct Hm as [Hs Hc].
    apply N.eqb_eq in Hs. subst slash.
    destruct (skipCommandChars_spec (c :: t)) as (w & Hw & Hall).
    destruct (skipCommandChars (c :: t)) as [|x rest] eqn:Hskip;
      [discriminate|].
    apply N.eqb_eq in Hx. subst x.
    exists w, rest. split; [simpl; now rewrite Hw|]. split; [|exact Hall].
    intros ->. simpl in Hw. injection Hw as -> _.
    vm_compute in Hc. discriminate.
  - intros (w & rest & -> & Hne & Hall).
    destruct w as [|c w]; [congruence|].
    pose proof Hall as Hall'.
    simpl in Hall. apply andb_true_iff in Hall. destruct Hall as [Hc Hall].
    change ([47] ++ (c :: w) ++ [32] ++ rest)
      with (47 :: c :: (w ++ 32 :: rest)).
    unfold hasArguments. rewrite Hc.
    change (c :: w ++ 32 :: rest) with ((c :: w) ++ 32 :: rest).
    rewrite skipCommandChars_app; [reflexivity | exact Hall' | reflexivity].
Qed.

Lemma strictEq_refl (v : optstring) : Describe.strictEq v v = true.
Proof.
  unfold Describe.strictEq. destruct v; [|reflexivity].
  now apply bool_decide_eq_true.
Qed.

(** X26.  The command gives no answer exactly when the text is a slash,
    a command name of letters, digits, [_] and [-], a space and anything
    after it: a command with arguments is left alone, also when the
    message has no sender. *)
Theorem default_silent_iff ctx bot :
  default ctx bot = Ok None
  <-> exists w rest,
        text (message ctx) = Some (js "/" ++ w ++ js " " ++ rest)
        /\ w <> [] /\ forallb isCommandChar w = true.
Proof.
  unfold default.
  destruct (hasArguments (interpolate (text (message ctx)))) eqn:Hargs.
  - split; [intros _|reflexivity].
    apply hasArguments_spec in Hargs.
    destruct Hargs as (w & rest & Ht & Hne & Hall).
    destruct (text (message ctx)) as [t|].
    + exists w, rest. simpl in Ht. now rewrite Ht.
    + simpl in Ht. vm_compute in Ht. discriminate.
  - split.
    + destruct (from (message ctx)); cbn [required bindR]; [|discriminate].
      destruct (reply_to_message (message ctx)) as [replied|];
        cbn [required bindR].
      * destruct (from replied); cbn [required bindR]; [|discriminate].
        destruct (Describe.botInfo bot); cbn [required bindR];
          [|discriminate].
        destruct (Describe.strictEq _ _); cbn [bindR].
        -- destruct (head _); cbn [bindR].
           ++ destruct (extractUser replied _); cbn [bindR];
                [|discriminate].
              destruct (text (message ctx)); discriminate.
           ++ destruct (text (message ctx)); discriminate.
        -- destruct (text (message ctx)); discriminate.
      * destruct (text (message ctx)); discriminate.
    + intros (w & rest & Ht & Hne & Hall). rewrite Ht in Hargs.
      assert (Hyes : hasArguments (js "/" ++ w ++ js " " ++ rest) = true)
        by (apply hasArguments_spec; eauto).
      cbn [interpolate] in Hargs. rewrite Hyes in Hargs. discriminate.
Qed.

(** X27.  A command that is not a reply is turned on the sender: the
    answer is the sender's link, the command without its slash, [了] and
    a link to the sender under the name [自己]. *)
Theorem default_without_reply ctx bot sender t :
  from (message ctx) = Some sender ->
  text (message ctx) = Some t ->
  hasArguments t = false ->
  reply_to_message (message ctx) = None ->
  default ctx bot
  = Ok (Some (formatUser sender None ++ js " " ++ drop 1 t ++ js "了 "
              ++ (js "[自己](https://t.me/"
                  ++ interpolate (Describe.username sender) ++ js ")")
              ++ js "！")).
Proof.
  intros Hfrom Htext Hargs Hreply. unfold default.
  rewrite Htext. cbn [interpolate]. rewrite Hargs, Hfrom, Hreply.
  cbn [required bindR]. rewrite strictEq_refl. reflexivity.
Qed.

(** X28.  A reply to a message of somebody who is not the bot is turned
    on that user; the user goes under the name [自己] when the username
    equals the sender's, which is also the case when both have no
    username at all. *)
Theorem default_reply_to_user ctx bot sender t replied other info :
  from (message ctx) = Some sender ->
  text (message ctx) = Some t ->
  hasArguments t = false ->
  reply_to_message (message ctx) = Some replied ->
  from replied = Some other ->
  Describe.botInfo bot = Some info ->
  Describe.username other <> Describe.username info ->
  default ctx bot
  = Ok (Some (formatUser sender None ++ js " " ++ drop 1 t ++ js "了 "
              ++ formatUser other
                   (if Describe.strictEq (Describe.username other)
                                         (Describe.username sender)
                    then Some (js "自己") else None)
              ++ js "！"))
  /\ (Describe.username other = None ->
      Describe.username sender = None ->
      formatUser other
        (if Describe.strictEq (Describe.username other)
                              (Describe.username sender)
         then Some (js "自己") else None)
      = js "[自己](https://t.me/undefined)").
Proof.
  intros Hfrom Htext Hargs Hreply Hother Hinfo Hnotbot. split.
  - unfold default.
    rewrite Htext. cbn [interpolate]. rewrite Hargs, Hfrom, Hreply, Hother.
    cbn [required bindR]. rewrite Hinfo. cbn [required bindR].
    assert (Hne : Describe.strictEq (Describe.username other)
                                    (Describe.username info) = false).
    { unfold Describe.strictEq.
      destruct (Describe.username other), (Describe.username info);
        try reflexivity; try congruence.
      apply bool_decide_eq_false. congruence. }
    rewrite Hne. cbn [bindR]. reflexivity.
  - intros Ho Hs. unfold formatUser. rewrite Ho, Hs. reflexivity.
Qed.

(** X29.  A reply to a message of the bot that carries a [text_link]
    entity is turned on the user the first such entity names: the name
    is the piece of the bot's text the entity covers, the username is
    what follows the last slash of its URL. *)
Theorem default_reply_to_bot ctx bot sender t replied botUser info es
    entity rt linkUrl :
  from (message ctx) = Some sender ->
  text (message ctx) = Some t ->
  hasArguments t = false ->
  reply_to_message (message ctx) = Some replied ->
  from replied = Some botUser ->
  Describe.botInfo bot = Some info ->
  Describe.username botUser = Describe.username info ->
  entities replied = Some es ->
  head (List.filter isTextLink es) = Some entity ->
  text replied = Some rt ->
  Entity.url entity = Some linkUrl ->
  let receiver :=
    {| Describe.first_name :=
         Some (take (Entity.length entity) (drop (Entity.offset entity) rt));
       Describe.last_name := None;
       Describe.username := Some (lastSegment linkUrl) |} in
  default ctx bot
  = Ok (Some (formatUser sender None ++ js " " ++ drop 1 t ++ js "了 "
              ++ formatUser receiver
                   (if Describe.strictEq (Some (lastSegment linkUrl))
                                         (Describe.username sender)
                    then Some (js "自己") else None)
              ++ js "！")).
Proof.
  intros Hfrom Htext Hargs Hreply Hbot Hinfo Hname Hes Hentity Hrt Hurl
    receiver.
  unfold default.
  rewrite Htext. cbn [interpolate]. rewrite Hargs, Hfrom, Hreply, Hbot.
  cbn [required bindR]. rewrite Hinfo. cbn [required bindR].
  rewrite Hname, strictEq_refl. cbn [bindR].
  rewrite Hes. cbn [default from_option Datatypes.id]. rewrite Hentity.
  unfold extractUser. rewrite Hrt, Hurl. cbn [required bindR].
  reflexivity.
Qed.

(** X30.  Without a [text] the command throws a [TypeError], and so it
    does without a sender unless the text is a command with
    arguments. *)
Theorem default_throws ctx bot :
  text (message ctx) = None
  \/ (from (message ctx) = None
      /\ hasArguments (interpolate (text (message ctx))) = false) ->
  default ctx bot = Throw TypeError.
Proof.
  intros [Htext|[Hfrom Hargs]]; unfold default.
  - rewrite Htext.
    change (hasArguments (interpolate None)) with false. cbv iota.
    destruct (from (message ctx)); cbn [required bindR]; [|reflexivity].
    destruct (reply_to_message (message ctx)) as [replied|];
      cbn [required bindR]; [|reflexivity].
    destruct (from replied); cbn [required bindR]; [|reflexivity].
    destruct (Describe.botInfo bot); cbn [required bindR]; [|reflexivity].
    destruct (Describe.strictEq _ _); cbn [bindR]; [|reflexivity].
    destruct (head _); cbn [bindR]; [|reflexivity].
    unfold extractUser.
    destruct (text replied); cbn [required bindR]; [|reflexivity].
    destruct (Entity.url _); reflexivity.
  - now rewrite Hargs, Hfrom.
Qed.

(** [default_without_reply] at Alice's [/hug]. *)
Lemma default_without_reply_witness :
  default (says alice (js "/hug") None) Describe.theBot
  = Ok (Some (formatUser alice None ++ js " " ++ drop 1 (js "/hug")
              ++ js "了 "
              ++ (js "[自己](https://t.me/"
                  ++ interpolate (Describe.username alice) ++ js ")")
              ++ js "！")).
Proof.
  apply default_without_reply; reflexivity.
Defined.

(** [default_reply_to_user] at Carol's [/hug] in reply to Dave, neither
    of whom has a username. *)
Lemma default_reply_to_user_witness :
  default (says carol (js "/hug") (Some daveMessage)) Describe.theBot
  = Ok (Some (formatUser carol None ++ js " " ++ drop 1 (js "/hug")
              ++ js "了 "
              ++ formatUser dave
                   (if Describe.strictEq (Describe.username dave)
                                         (Describe.username carol)
                    then Some (js "自己") else None)
              ++ js "！"))
  /\ formatUser dave
       (if Describe.strictEq (Describe.username dave)
                             (Describe.username carol)
        then Some (js "自己") else None)
     = js "[自己](https://t.me/undefined)".
Proof.
  destruct (default_reply_to_user
              (says carol (js "/hug") (Some daveMessage)) Describe.theBot
              carol (js "/hug") daveMessage dave Describe.tietie
              eq_refl eq_refl eq_refl eq_refl eq_refl eq_refl)
    as [Hanswer Hself].
  - discriminate.
  - split; [exact Hanswer | now apply Hself].
Defined.

(** [default_reply_to_bot] at Bob's [/hug] in reply to [botAnswer]: it
    is turned on Alice. *)
Lemma default_reply_to_bot_witness :
  default (says bob (js "/hug") (Some botAnswer)) Describe.theBot
  = Ok (Some (js "[\B\o\b](https://t.me/bob) hug了 [\A\l\i\c\e](https://t.me/alice)！")).
Proof.
  rewrite (default_reply_to_bot
             (says bob (js "/hug") (Some botAnswer)) Describe.theBot
             bob (js "/hug") botAnswer Describe.tietie Describe.tietie
             _
             {| Entity.type := js "text_link"; Entity.offset := 0;
                Entity.length := 5;
                Entity.url := Some (js "https://t.me/alice") |}
             (js "Alice hug了 Bob！") (js "https://t.me/alice")
             eq_refl eq_refl eq_refl eq_refl eq_refl eq_refl eq_refl
             eq_refl eq_refl eq_refl eq_refl).
  vm_compute; reflexivity.
Defined.

(** [default_throws] at a photo. *)
Lemma default_throws_witness :
  default alicePhoto Describe.theBot = Throw TypeError.
Proof.
  apply default_throws. left. reflexivity.
Defined.

End DefaultCommandProps.
